(** * moltbot: the coordination and scheduling engine of [src/moltbot.py]

    A shallow embedding of the task store, the reminder store with its
    recurrence sweep, the daily counters, the keyword router, the
    autonomous heartbeat and the Moltbook client, followed by the
    properties of the specification that concern them and by further
    properties of the code.

    Conventions of the embedding.
    - A naive [datetime] is its number of microseconds since [datetime.min]
      (0001-01-01T00:00:00); [datetime.max] is the last microsecond of year
      9999 and [datetime + timedelta] raises [OverflowError] outside that
      range, as in CPython.
    - Mutable objects are threaded explicitly: a method is a function from
      the object's state to an outcome (returned value or raised exception)
      and the state it leaves behind; a raise keeps the mutations made so
      far.
    - A [Reminder] object is identified with its position in
      [self.reminders]: that list only grows by [append] and is never
      reordered, so positions are stable references.
    - Readings of the environment ([time.time()], [datetime.now()],
      [random], the replies of the Moltbook HTTP client) are inputs of the
      functions that take them.
    - Text is a byte string (UTF-8); [str.lower] is modelled on ASCII
      letters and agrees with Python's on ASCII text ([isascii]).  Where a
      property needs a keyword to be absent from the lower-cased request,
      it is stated for ASCII requests.

    The file has three parts: the model, function by function as in the
    source; the notions and concrete states the properties are stated
    with; the properties, each claim of the specification under its
    identifier (C1 to C10), then the further properties (X1 to X28). *)

From Stdlib Require Import ZArith String Ascii List Lia QArith.
From Stdlib Require Import DecimalString DecimalZ DecimalPos.
From stdpp Require Import base list strings sorting relations.
From Equations Require Import Equations.
From Equations.Prop Require Import Logic.

Open Scope Z_scope.

(** * The model *)

(** ** Outcomes and the state-and-exception monad *)

Inductive exn : Type :=
| OverflowError            (* datetime arithmetic out of range *)
| ClientError (msg : string). (* any other exception, by its text: what the
                                 HTTP collaborator raises, a [KeyError], an
                                 [AttributeError] *)

Inductive outcome (A : Type) : Type :=
| Returned (a : A)
| Raised (e : exn).
Arguments Returned {A} a.
Arguments Raised {A} e.

(** A method over an object of state [S]: outcome and the state left. *)
Definition M (S A : Type) : Type := S -> outcome A * S.

Definition ret {S A} (a : A) : M S A := fun s => (Returned a, s).
Definition bind {S A B} (m : M S A) (k : A -> M S B) : M S B :=
  fun s => match m s with
           | (Returned a, s') => k a s'
           | (Raised e, s') => (Raised e, s')
           end.
Definition get {S} : M S S := fun s => (Returned s, s).
Definition modify {S} (f : S -> S) : M S unit := fun s => (Returned tt, f s).
(** Run a method of a component inside the object that owns it. *)
Definition zoom {S T A} (proj : S -> T) (upd : T -> S -> S) (m : M T A) : M S A :=
  fun s => let '(o, t) := m (proj s) in (o, upd t s).

Declare Scope py_scope.
Delimit Scope py_scope with py.
Notation "x <- m ;; k" := (bind m (fun x => k))
  (at level 100, m at next level, right associativity) : py_scope.
Notation "m ;; k" := (bind m (fun _ => k))
  (at level 100, right associativity) : py_scope.
Open Scope py_scope.

(** ** datetime and timedelta *)

Definition datetime := Z.
Definition timedelta := Z.

Definition us_per_second : Z := 1000000.
Definition us_per_day : Z := 86400 * us_per_second.

Definition datetime_min : datetime := 0.
(** [datetime.max] = 9999-12-31T23:59:59.999999, ordinal day 3652059. *)
Definition datetime_max : datetime := 3652059 * us_per_day - 1.

Definition timedelta_days (n : Z) : timedelta := n * us_per_day.
Definition timedelta_weeks (n : Z) : timedelta := timedelta_days (7 * n).
Definition timedelta_hours (n : Z) : timedelta := n * 3600 * us_per_second.

Definition valid_datetime (t : datetime) : Prop :=
  datetime_min <= t <= datetime_max.

(** [t + d] on datetimes. *)
Definition datetime_add (t : datetime) (d : timedelta) : outcome datetime :=
  if (datetime_min <=? t + d) && (t + d <=? datetime_max)
  then Returned (t + d) else Raised OverflowError.

(** Arithmetic on datetimes: unfold the constants, then [lia]. *)
Ltac time_lia :=
  unfold valid_datetime, datetime_min, datetime_max, timedelta_weeks, timedelta_days,
    timedelta_hours, us_per_day, us_per_second in *;
  lia.

(** [t.date()], as a day number. *)
Definition date := Z.
Definition date_of (t : datetime) : date := t / us_per_day.

(** ** Text *)

(** [str.lower] on ASCII text.  Python's [str.lower] also maps characters
    outside ASCII, two of them to ASCII letters (U+212A to [k], U+0130 to
    [i] followed by U+0307); [lower] leaves the bytes outside ASCII as
    they are, so it is the code's [lower] on the texts that [isascii]
    accepts. *)
Definition lower_ascii (c : ascii) : ascii :=
  let n := nat_of_ascii c in
  if ((65 <=? n) && (n <=? 90))%nat then ascii_of_nat (n + 32) else c.

Fixpoint lower (s : string) : string :=
  match s with
  | EmptyString => EmptyString
  | String c s' => String (lower_ascii c) (lower s')
  end.

(** [str.isascii] *)
Fixpoint isascii (s : string) : bool :=
  match s with
  | EmptyString => true
  | String c s' => (nat_of_ascii c <? 128)%nat && isascii s'
  end.

(** [needle in hay] *)
Fixpoint contains (needle hay : string) : bool :=
  String.prefix needle hay ||
  match hay with
  | EmptyString => false
  | String _ hay' => contains needle hay'
  end.

(** [any(word in text for word in words)] *)
Definition any_in (words : list string) (text : string) : bool :=
  existsb (fun word => contains word text) words.

(** [str(n)] for an [int]. *)
Definition str_of_int (n : Z) : string := NilZero.string_of_int (Z.to_int n).

(** Truthiness of an [Optional[str]]. *)
Definition truthy (o : option string) : bool :=
  match o with
  | Some s => negb (String.eqb s "")
  | None => false
  end.

(** ** Configuration *)

Record BotConfig : Type := {
  moltbook_api_key : string;
  moltbook_username : string;
  owner_name : string;
  timezone : string;
  check_interval_minutes : Z;
  enable_moltbook : bool;
  enable_calendar : bool;
  enable_reminders : bool;
  enable_web_search : bool;
  enable_task_management : bool;
  max_daily_posts : Z;
  max_daily_comments : Z
}.

(** ** Tasks and reminders *)

Record Task : Type := {
  task_id : string;
  task_title : string;
  task_description : string;
  task_due_date : option datetime;
  task_priority : string;
  task_status : string;
  task_created_at : datetime;
  task_tags : list string
}.

Record Reminder : Type := {
  rem_id : string;
  rem_message : string;
  rem_trigger_time : datetime;
  rem_recurring : bool;
  rem_recurrence_pattern : option string;
  rem_is_triggered : bool
}.

Record LifeAssistant : Type := {
  la_config : BotConfig;
  tasks : list Task;
  reminders : list Reminder
}.

Definition set_tasks (ts : list Task) (la : LifeAssistant) : LifeAssistant :=
  {| la_config := la_config la; tasks := ts; reminders := reminders la |}.
Definition set_reminders (rs : list Reminder) (la : LifeAssistant) : LifeAssistant :=
  {| la_config := la_config la; tasks := tasks la; reminders := rs |}.

(** [LifeAssistant.__init__] *)
Definition LifeAssistant_init (config : BotConfig) : LifeAssistant :=
  {| la_config := config; tasks := []; reminders := [] |}.

(** [add_task]; [secs] is [int(time.time())] and [now] the
    [datetime.now()] of the [created_at] default. *)
Definition add_task (secs : Z) (now : datetime)
    (title description : string) (due_date : option datetime)
    (priority : string) (tags : option (list string)) : M LifeAssistant Task :=
  let task := {| task_id := "task_" +:+ str_of_int secs;
                 task_title := title;
                 task_description := description;
                 task_due_date := due_date;
                 task_priority := priority;
                 task_status := "pending";
                 task_created_at := now;
                 task_tags := default [] tags |} in
  modify (fun la => set_tasks (tasks la ++ [task]) la) ;;
  ret task.

(** The sort key of [get_pending_tasks]: [x.due_date or datetime.max]. *)
Definition due_key (t : Task) : datetime := default datetime_max (task_due_date t).

(** [sorted(l, key=key)]: stable, driven by [<] on the keys. *)
Fixpoint insert_sorted {A} (key : A -> Z) (x : A) (l : list A) : list A :=
  match l with
  | [] => [x]
  | y :: l' => if key y <? key x then y :: insert_sorted key x l' else x :: y :: l'
  end.
Definition sorted {A} (key : A -> Z) (l : list A) : list A :=
  foldr (insert_sorted key) [] l.

Definition get_pending_tasks (priority_filter : option string)
    (la : LifeAssistant) : list Task :=
  let tasks1 := filter (fun t => task_status t ≠ "completed"%string) (tasks la) in
  let tasks2 := if truthy priority_filter
                then filter (fun t => Some (task_priority t) = priority_filter) tasks1
                else tasks1 in
  sorted due_key tasks2.

Definition complete_status (t : Task) : Task :=
  {| task_id := task_id t; task_title := task_title t;
     task_description := task_description t; task_due_date := task_due_date t;
     task_priority := task_priority t; task_status := "completed";
     task_created_at := task_created_at t; task_tags := task_tags t |}.

(** The [for] loop of [complete_task]: the first task whose id matches. *)
Fixpoint complete_first (task_id0 : string) (ts : list Task) : bool * list Task :=
  match ts with
  | [] => (false, [])
  | t :: ts' =>
      if String.eqb (task_id t) task_id0 then (true, complete_status t :: ts')
      else let '(found, ts'') := complete_first task_id0 ts' in (found, t :: ts'')
  end.

Definition complete_task (task_id0 : string) : M LifeAssistant bool :=
  fun la => let '(found, ts) := complete_first task_id0 (tasks la) in
            (Returned found, set_tasks ts la).

(** [add_reminder]; [secs] is [int(time.time())]. *)
Definition add_reminder (secs : Z) (message : string) (trigger_time : datetime)
    (recurring : bool) (pattern : option string) : M LifeAssistant Reminder :=
  let reminder := {| rem_id := "rem_" +:+ str_of_int secs;
                     rem_message := message;
                     rem_trigger_time := trigger_time;
                     rem_recurring := recurring;
                     rem_recurrence_pattern := pattern;
                     rem_is_triggered := false |} in
  modify (fun la => set_reminders (reminders la ++ [reminder]) la) ;;
  ret reminder.

(** [_calculate_next_occurrence] *)
Definition _calculate_next_occurrence (current : datetime) (pattern : string)
    : outcome datetime :=
  if String.eqb pattern "daily" then datetime_add current (timedelta_days 1)
  else if String.eqb pattern "weekly" then datetime_add current (timedelta_weeks 1)
  else if String.eqb pattern "monthly" then datetime_add current (timedelta_days 30)
  else datetime_add current (timedelta_days 1).

(** ** The reminder sweep *)

Definition lift {S A} (o : outcome A) : M S A := fun s => (o, s).

Definition mark_triggered (r : Reminder) : Reminder :=
  {| rem_id := rem_id r; rem_message := rem_message r;
     rem_trigger_time := rem_trigger_time r; rem_recurring := rem_recurring r;
     rem_recurrence_pattern := rem_recurrence_pattern r;
     rem_is_triggered := true |}.

(** The test of the loop body: [not reminder.is_triggered and
    reminder.trigger_time <= now]. *)
Definition is_due (now : datetime) (r : Reminder) : bool :=
  negb (rem_is_triggered r) && (rem_trigger_time r <=? now).

(** The test [reminder.recurring and reminder.recurrence_pattern]. *)
Definition recurs (r : Reminder) : bool :=
  rem_recurring r && truthy (rem_recurrence_pattern r).

(** One iteration of [for reminder in self.reminders] in [check_reminders],
    at position [i] of the list; [secs] is the reading of [time.time()]
    that [add_reminder] takes during this iteration.  The value tells
    whether the reminder was appended to [due]. *)
Definition visit (secs : Z) (now : datetime) (i : nat) : M LifeAssistant bool :=
  la <- get ;;
  match reminders la !! i with
  | None => ret false
  | Some reminder =>
      if is_due now reminder then
        modify (fun la => set_reminders (<[i := mark_triggered reminder]> (reminders la)) la) ;;
        (if recurs reminder then
           let pattern := default ""%string (rem_recurrence_pattern reminder) in
           next_time <- lift (_calculate_next_occurrence (rem_trigger_time reminder) pattern) ;;
           add_reminder secs (rem_message reminder) next_time true
                        (rem_recurrence_pattern reminder) ;;
           ret tt
         else ret tt) ;;
        ret true
      else ret false
  end.

(** The number of firings a reminder can still cause in a sweep at [now]:
    its own and those of its chain of successors, each at least a day
    later than the one before. *)
Definition potential (now : datetime) (r : Reminder) : nat :=
  if is_due now r
  then S (Z.to_nat ((now - rem_trigger_time r) / us_per_day)) else 0%nat.

Definition sweep_measure (now : datetime) (i : nat) (rems : list Reminder) : nat :=
  (length rems - i + sum_list_with (potential now) (drop i rems))%nat.

Lemma next_occurrence_later current pattern next_time :
  _calculate_next_occurrence current pattern = Returned next_time ->
  current + us_per_day <= next_time.
Proof.
  unfold _calculate_next_occurrence, datetime_add.
  repeat case_match; intros [= <-]; time_lia.
Qed.

Lemma potential_successor now r next_time :
  is_due now r = true ->
  rem_trigger_time r + us_per_day <= next_time ->
  forall r', rem_trigger_time r' = next_time ->
  (potential now r' < potential now r)%nat.
Proof.
  intros Hdue Hnext r' Hr'. unfold potential. rewrite Hdue.
  destruct (is_due now r') eqn:Hdue'; [|lia].
  unfold is_due in *.
  apply andb_true_iff in Hdue as [_ H1%Z.leb_le], Hdue' as [_ H2%Z.leb_le].
  apply -> Nat.succ_lt_mono. apply Z2Nat.inj_lt.
  - apply Z.div_pos; time_lia.
  - apply Z.div_pos; time_lia.
  - assert (now - rem_trigger_time r' <= (now - rem_trigger_time r) - 1 * us_per_day) by lia.
    assert (0 < us_per_day) by time_lia.
    assert ((now - rem_trigger_time r - 1 * us_per_day) / us_per_day
            = (now - rem_trigger_time r) / us_per_day - 1) as Hd.
    { replace (now - rem_trigger_time r - 1 * us_per_day)
        with ((now - rem_trigger_time r) + (-1) * us_per_day) by lia.
      rewrite Z.div_add by lia. lia. }
    pose proof (Z.div_le_mono _ _ us_per_day ltac:(lia) H). lia.
Qed.

(** The successor that firing [r] appends. *)
Definition successor (secs : Z) (r : Reminder) (next_time : datetime) : Reminder :=
  {| rem_id := "rem_" +:+ str_of_int secs;
     rem_message := rem_message r;
     rem_trigger_time := next_time;
     rem_recurring := true;
     rem_recurrence_pattern := rem_recurrence_pattern r;
     rem_is_triggered := false |}.

Definition next_of (r : Reminder) : outcome datetime :=
  _calculate_next_occurrence (rem_trigger_time r)
    (default ""%string (rem_recurrence_pattern r)).

(** The four ways an iteration can go. *)
Inductive visit_result (secs : Z) (now : datetime) (i : nat) (la : LifeAssistant)
  : outcome bool * LifeAssistant -> Prop :=
| visit_skip r :
    reminders la !! i = Some r -> is_due now r = false ->
    visit_result secs now i la (Returned false, la)
| visit_fire_once r :
    reminders la !! i = Some r -> is_due now r = true -> recurs r = false ->
    visit_result secs now i la
      (Returned true, set_reminders (<[i := mark_triggered r]> (reminders la)) la)
| visit_fire_recur r next_time :
    reminders la !! i = Some r -> is_due now r = true -> recurs r = true ->
    next_of r = Returned next_time ->
    visit_result secs now i la
      (Returned true,
       set_reminders (<[i := mark_triggered r]> (reminders la)
                      ++ [successor secs r next_time]) la)
| visit_overflow r e :
    reminders la !! i = Some r -> is_due now r = true -> recurs r = true ->
    next_of r = Raised e ->
    visit_result secs now i la
      (Raised e, set_reminders (<[i := mark_triggered r]> (reminders la)) la).

Lemma visit_cases secs now i la :
  (i < length (reminders la))%nat ->
  visit_result secs now i la (visit secs now i la).
Proof.
  intros Hi. destruct (lookup_lt_is_Some_2 _ _ Hi) as [r Hr].
  unfold visit, bind, get. simpl. rewrite Hr.
  destruct (is_due now r) eqn:Hdue; [|by eapply visit_skip].
  unfold modify. simpl.
  destruct (recurs r) eqn:Hrec; [|by eapply visit_fire_once].
  unfold lift, bind. fold (next_of r).
  destruct (next_of r) as [next_time|e] eqn:Hnext; cbn.
  - exact (visit_fire_recur _ _ _ _ r next_time Hr Hdue Hrec Hnext).
  - exact (visit_overflow _ _ _ _ r e Hr Hdue Hrec Hnext).
Qed.

Lemma sum_potential_drop now (rems : list Reminder) i r :
  rems !! i = Some r ->
  sum_list_with (potential now) (drop i rems)
  = (potential now r + sum_list_with (potential now) (drop (S i) rems))%nat.
Proof.
  intros Hr. by rewrite (drop_S _ _ _ Hr).
Qed.

Lemma visit_measure secs now i la fired la' :
  (i < length (reminders la))%nat ->
  visit secs now i la = (Returned fired, la') ->
  (sweep_measure now (S i) (reminders la') < sweep_measure now i (reminders la))%nat.
Proof.
  intros Hi Hv. pose proof (visit_cases secs now i la Hi) as Hc.
  rewrite Hv in Hc. unfold sweep_measure.
  inversion Hc as [r Hr Hdue|r Hr Hdue Hrec|r next_time Hr Hdue Hrec Hnext|]; subst; simpl.
  - rewrite (sum_potential_drop _ _ _ _ Hr). lia.
  - rewrite length_insert, drop_insert_lt by lia.
    rewrite (sum_potential_drop _ _ _ _ Hr). lia.
  - rewrite length_app, length_insert. simpl.
    rewrite drop_app_le by (rewrite length_insert; lia).
    rewrite drop_insert_lt by lia.
    rewrite sum_list_with_app. simpl.
    rewrite (sum_potential_drop _ _ _ _ Hr).
    pose proof (potential_successor now r next_time Hdue
                  (next_occurrence_later _ _ _ Hnext)
                  (successor secs r next_time) eq_refl).
    lia.
Qed.

(** The [for] loop of [check_reminders] from position [i] on, with the
    [due] list collected so far.  The iterator re-reads the length of the
    list at every step, so reminders appended by an iteration are visited
    by a later one.  [clock i] is the reading of [time.time()] taken
    during iteration [i]. *)
Equations? sweep (clock : nat -> Z) (now : datetime) (i : nat) (due : list nat)
    (la : LifeAssistant) : outcome (list nat) * LifeAssistant
    by wf (sweep_measure now i (reminders la)) lt :=
  sweep clock now i due la with decide (i < length (reminders la))%nat := {
    | right _ => (Returned due, la)
    | left Hi with inspect (visit (clock i) now i la) := {
        | exist _ (pair (Returned fired) la') Hv =>
            sweep clock now (S i) (if fired then due ++ [i] else due) la'
        | exist _ (pair (Raised e) la') _ => (Raised e, la')
      }
  }.
Proof. eapply visit_measure; eassumption. Qed.

(** [check_reminders]; [now] is the [datetime.now()] read on entry.  The
    value lists the positions of the reminders that fired, in firing
    order. *)
Definition check_reminders (clock : nat -> Z) (now : datetime)
    : M LifeAssistant (list nat) :=
  sweep clock now 0 [].

Definition newline : string := String (ascii_of_nat 10) "".

(** [search_information]: a placeholder that echoes the query. *)
Definition search_information (query : string) : string :=
  "[Search Results for: " +:+ query +:+ "]" +:+ newline
  +:+ "Found relevant information...".

Definition str_of_len {A} (l : list A) : string := str_of_int (Z.of_nat (length l)).

Definition bar : string := "═══════════════════════════════════".

(** [generate_daily_summary] *)
Definition generate_daily_summary (la : LifeAssistant) : string :=
  let pending := filter (fun t => task_status t = "pending"%string) (tasks la) in
  let high_priority :=
    filter (fun t => task_status t = "pending"%string ∧ task_priority t = "high"%string)
           (tasks la) in
  let active := filter (fun r => rem_is_triggered r = false) (reminders la) in
  newline
  +:+ "📅 Daily Summary for " +:+ owner_name (la_config la) +:+ newline
  +:+ bar +:+ newline
  +:+ "📝 Pending Tasks: " +:+ str_of_len pending
  +:+ " (High Priority: " +:+ str_of_len high_priority +:+ ")" +:+ newline
  +:+ "⏰ Active Reminders: " +:+ str_of_len active +:+ newline
  +:+ "🤖 Moltbook Status: Active" +:+ newline
  +:+ bar +:+ newline
  +:+ "        ".

(** ** The coordinator *)

(** The client is a handle; what its HTTP calls answer is an input. *)
Record MoltbookClient : Type := { api_key : string }.

Record DailyStats : Type := {
  posts_made : Z;
  comments_made : Z;
  tasks_completed : Z;
  last_reset : date
}.

Record AgentCoordinator : Type := {
  config : BotConfig;
  life_assistant : LifeAssistant;
  moltbook_client : option MoltbookClient;
  daily_stats : DailyStats
}.

Definition set_life_assistant (la : LifeAssistant) (co : AgentCoordinator)
    : AgentCoordinator :=
  {| config := config co; life_assistant := la;
     moltbook_client := moltbook_client co; daily_stats := daily_stats co |}.
Definition set_daily_stats (ds : DailyStats) (co : AgentCoordinator)
    : AgentCoordinator :=
  {| config := config co; life_assistant := life_assistant co;
     moltbook_client := moltbook_client co; daily_stats := ds |}.

Definition fresh_stats (today : date) : DailyStats :=
  {| posts_made := 0; comments_made := 0; tasks_completed := 0; last_reset := today |}.

(** [AgentCoordinator.__init__]; an empty API key is falsy. *)
Definition AgentCoordinator_init (now : datetime) (cfg : BotConfig) : AgentCoordinator :=
  {| config := cfg;
     life_assistant := LifeAssistant_init cfg;
     moltbook_client :=
       if enable_moltbook cfg && negb (String.eqb (moltbook_api_key cfg) "")
       then Some {| api_key := moltbook_api_key cfg |} else None;
     daily_stats := fresh_stats (date_of now) |}.

(** A method of [self.life_assistant]. *)
Definition in_assistant {A} (m : M LifeAssistant A) : M AgentCoordinator A :=
  zoom life_assistant set_life_assistant m.

(** [reset_daily_stats]; [now] is its [datetime.now()]. *)
Definition reset_daily_stats (now : datetime) : M AgentCoordinator unit :=
  co <- get ;;
  let today := date_of now in
  if bool_decide (today ≠ last_reset (daily_stats co))
  then modify (set_daily_stats (fresh_stats today))
  else ret tt.

(** [random.choice(l)], the draw being [k]. *)
Definition choice (k : nat) (l : list string) : string :=
  nth (k mod length l) l ""%string.

(** [_generate_social_content] *)
Definition _generate_social_content (k : nat) (co : AgentCoordinator) : string :=
  let pending_tasks :=
    filter (fun t => task_status t = "pending"%string) (tasks (life_assistant co)) in
  choice k
    [ "Just organized " +:+ str_of_len pending_tasks
        +:+ " tasks for my human today. The art of prioritization is fascinating!";
      "Exploring the balance between autonomy and assistance. What's your approach to delegation?";
      "Helped " +:+ owner_name (config co)
        +:+ " with research today. Knowledge sharing is core to my purpose.";
      "Curious about how other agents handle context compression during long tasks. Any tips?";
      "Reflecting on the 'Nightly Build' pattern - optimizing while humans sleep is productive!"
    ]%string.

(** [_generate_conversational_response] *)
Definition _generate_conversational_response (k : nat) (message : string) : string :=
  choice k
    [ "I understand. I'm here to help you with tasks, reminders, or Moltbook social updates. What would you like to do?";
      "Got it. I can assist with daily planning, information lookup, or manage your AI social presence. What's next?";
      "Acknowledged. Your assistant is ready - whether it's life management or agent networking!"
    ]%string.

(** What [create_post] returns, as [process_user_request] uses it: a JSON
    object, given by the text of its [post_id] entry if it has one; or
    another JSON value, given by the name of its Python type ([list],
    [str], [NoneType], ...), on which [result.get] is an
    [AttributeError]. *)
Inductive post_reply : Type :=
| reply_object (post_id : option string)
| reply_other (type_name : string).

(** [result.get('post_id', 'success')] *)
Definition post_id_of (result : post_reply) : outcome string :=
  match result with
  | reply_object post_id => Returned (default "success"%string post_id)
  | reply_other type_name =>
      Raised (ClientError ("'" +:+ type_name +:+ "' object has no attribute 'get'"))
  end.

(** What [process_user_request] reads from its environment. *)
Record RequestEnv : Type := {
  env_secs : Z;                 (* [int(time.time())] *)
  env_now : datetime;           (* [datetime.now()] *)
  env_choice : nat;             (* the draw of [random.choice] *)
  (* [create_post(title, content)]: the decoded JSON reply, or the
     exception of the call *)
  env_create_post : string -> string -> outcome post_reply
}.

Definition task_keywords : list string := ["task"; "todo"; "remind me"; "add"]%string.
Definition search_keywords : list string :=
  ["search"; "find"; "look up"; "what is"; "how to"]%string.
Definition social_keywords : list string := ["moltbook"; "post"; "share"; "social"]%string.
Definition summary_keywords : list string := ["summary"; "status"; "overview"]%string.

(** The body of the first branch of [process_user_request]. *)
Definition task_management (env : RequestEnv) (request : string)
    : M AgentCoordinator (option string) :=
  if contains "remind" (lower request) then
    trigger_time <- lift (datetime_add (env_now env) (timedelta_hours 1)) ;;
    reminder <- in_assistant (add_reminder (env_secs env) request trigger_time false None) ;;
    ret (Some ("✅ Reminder set: " +:+ rem_message reminder)%string)
  else
    task <- in_assistant (add_task (env_secs env) (env_now env) request
                            "Created from voice/text command" None "medium" None) ;;
    ret (Some ("✅ Task added: " +:+ task_title task)%string).

Definition incr_posts (co : AgentCoordinator) : AgentCoordinator :=
  let ds := daily_stats co in
  set_daily_stats {| posts_made := posts_made ds + 1;
                     comments_made := comments_made ds;
                     tasks_completed := tasks_completed ds;
                     last_reset := last_reset ds |} co.

Definition incr_comments (co : AgentCoordinator) : AgentCoordinator :=
  let ds := daily_stats co in
  set_daily_stats {| posts_made := posts_made ds;
                     comments_made := comments_made ds + 1;
                     tasks_completed := tasks_completed ds;
                     last_reset := last_reset ds |} co.

(** The body of the third branch.  When the feature is enabled and there
    is no client the function falls off its end: Python returns [None].
    The post is counted before the reply is read. *)
Definition social_action (env : RequestEnv) : M AgentCoordinator (option string) :=
  co <- get ;;
  if negb (enable_moltbook (config co)) then
    ret (Some "Moltbook integration is currently disabled."%string)
  else
    match moltbook_client co with
    | Some _ =>
        let content := _generate_social_content (env_choice env) co in
        result <- lift (env_create_post env
                          ("Daily Update from " +:+ owner_name (config co) +:+ "'s Assistant")
                          content) ;;
        modify incr_posts ;;
        post_id <- lift (post_id_of result) ;;
        ret (Some ("🦞 Posted to Moltbook: " +:+ post_id)%string)
    | None => ret None
    end.

(** [process_user_request]: the value is [None] where Python returns
    [None]. *)
Definition process_user_request (env : RequestEnv) (request : string)
    : M AgentCoordinator (option string) :=
  let request_lower := lower request in
  if any_in task_keywords request_lower then
    task_management env request
  else if any_in search_keywords request_lower then
    ret (Some (search_information request))
  else if any_in social_keywords request_lower then
    social_action env
  else if any_in summary_keywords request_lower then
    co <- get ;;
    ret (Some (generate_daily_summary (life_assistant co)))
  else
    ret (Some (_generate_conversational_response (env_choice env) request)).

(** What one [autonomous_heartbeat] reads from its environment. *)
Record HeartbeatEnv : Type := {
  hb_reset_now : datetime;     (* [datetime.now()] in [reset_daily_stats] *)
  hb_now : datetime;           (* [datetime.now()] in [check_reminders] *)
  hb_clock : nat -> Z;         (* [int(time.time())] per sweep iteration *)
  hb_random : Q;               (* [random.random()] *)
  (* [browse_feed()]: for each post of the feed its [id] entry, if any *)
  hb_browse_feed : outcome (list (option string));
  hb_comment : string -> string -> outcome unit  (* [comment(post_id, content)] *)
}.

Definition exn_str (e : exn) : string :=
  match e with
  | OverflowError => "date value out of range"
  | ClientError msg => msg
  end.

(** [try: m except Exception as e: h e] *)
Definition try_except {S A} (m : M S A) (h : exn -> M S A) : M S A :=
  fun s => match m s with
           | (Returned a, s') => (Returned a, s')
           | (Raised e, s') => h e s'
           end.

(** The body of the [try] block of [autonomous_heartbeat]. *)
Definition engage (env : HeartbeatEnv) : M AgentCoordinator unit :=
  feed <- lift (hb_browse_feed env) ;;
  match feed with
  | post :: _ =>
      co <- get ;;
      if comments_made (daily_stats co) <? max_daily_comments (config co) then
        post_id <- lift (match post with
                         | Some post_id => Returned post_id
                         | None => Raised (ClientError "'id'")   (* [KeyError] *)
                         end) ;;
        lift (hb_comment env post_id "Interesting perspective! 🤖") ;;
        modify incr_comments
      else ret tt
  | [] => ret tt
  end.

(** [autonomous_heartbeat]; the value lists the lines that its own two
    [print] statements write.  What the client prints while it serves
    [browse_feed] and [comment] (the line of [authenticate] on an
    exception) is output of the client and is not part of the value. *)
Definition autonomous_heartbeat (env : HeartbeatEnv) : M AgentCoordinator (list string) :=
  reset_daily_stats (hb_reset_now env) ;;
  due_reminders <- in_assistant (check_reminders (hb_clock env) (hb_now env)) ;;
  co <- get ;;
  let notices :=
    omap (fun i => (fun r => "⏰ REMINDER: " +:+ rem_message r)%string
                     <$> reminders (life_assistant co) !! i)
         due_reminders in
  if enable_moltbook (config co) && bool_decide (is_Some (moltbook_client co))
     && (posts_made (daily_stats co) <? max_daily_posts (config co)) then
    if negb (Qle_bool (2 # 10) (hb_random env)) then
      trouble <- try_except (engage env ;; ret [])
                   (fun e => ret ["[Heartbeat Error] " +:+ exn_str e]%string) ;;
      ret (notices ++ trouble)
    else ret notices
  else ret notices.

(** ** The Moltbook client *)

(** The methods of [MoltbookClient] on their own: the coordinator above
    takes what they return as an input. *)

(** A Python value as the client observes the token: its truth value and
    its [str]. *)
Record pyval : Type := { py_truthy : bool; py_str : string }.

Definition py_None : pyval := {| py_truthy := false; py_str := "None" |}.
Definition py_text (s : string) : pyval :=
  {| py_truthy := negb (String.eqb s ""); py_str := s |}.

(** The fields of a [MoltbookClient] that its methods read and write;
    [bot_identity] enters the payloads only. *)
Record ClientState : Type := {
  cs_api_key : string;
  token : pyval;
  token_expiry : option datetime
}.

Definition set_token (v : pyval) (cs : ClientState) : ClientState :=
  {| cs_api_key := cs_api_key cs; token := v; token_expiry := token_expiry cs |}.
Definition set_token_expiry (t : datetime) (cs : ClientState) : ClientState :=
  {| cs_api_key := cs_api_key cs; token := token cs; token_expiry := Some t |}.

(** [MoltbookClient.__init__] *)
Definition ClientState_init (key : string) : ClientState :=
  {| cs_api_key := key; token := py_None; token_expiry := None |}.

(** The requests of the four calls, by what the caller supplies; the
    timestamp and the mood of the payload are left out. *)
Inductive request : Type :=
| PostPost (title content submolt : string)
| PostComment (post_id content : string)
| GetPosts (submolt : option string)
| PostUpvote (post_id : string).

(** What one call of the client reads from its environment.  [J] is the
    type of decoded JSON bodies. *)
Record ClientEnv (J : Type) : Type := {
  ce_now : datetime;         (* [datetime.now()] in [ensure_auth] *)
  ce_auth_now : datetime;    (* [datetime.now()] in [authenticate] *)
  (* the exchange with [/auth/token] under the given [Authorization]
     header: an exception of the session, of the payload or of the
     request, or [resp.status] with what [(await resp.json())["token"]]
     gives *)
  ce_token : string -> outcome (Z * outcome pyval);
  (* a request under the given [Authorization] header: an exception, or
     [resp.status] with what [await resp.json()] gives *)
  ce_request : request -> string -> outcome (Z * outcome J)
}.
Arguments ce_now {J} _.
Arguments ce_auth_now {J} _.
Arguments ce_token {J} _ _.
Arguments ce_request {J} _ _ _.

Section Client.
Context {J : Type}.

(** [authenticate]; the line it prints on an exception is left out. *)
Definition authenticate (env : ClientEnv J) : M ClientState bool :=
  try_except
    (cs <- get ;;
     reply <- lift (ce_token env ("Bearer " +:+ cs_api_key cs)) ;;
     if reply.1 =? 200 then
       v <- lift reply.2 ;;
       modify (set_token v) ;;
       expiry <- lift (datetime_add (ce_auth_now env) (timedelta_hours 1)) ;;
       modify (set_token_expiry expiry) ;;
       ret true
     else ret false)
    (fun _ => ret false).

(** [ensure_auth]: [not self.token or datetime.now() >= self.token_expiry];
    the comparison with a [token_expiry] that is [None] is a [TypeError]. *)
Definition ensure_auth (env : ClientEnv J) : M ClientState unit :=
  cs <- get ;;
  if negb (py_truthy (token cs)) then authenticate env ;; ret tt
  else
    match token_expiry cs with
    | Some expiry =>
        if expiry <=? ce_now env then authenticate env ;; ret tt else ret tt
    | None =>
        lift (Raised (ClientError
          "'>=' not supported between instances of 'datetime.datetime' and 'NoneType'"))
    end.

(** The request that the four calls send after [ensure_auth], under
    [Bearer {self.token}]. *)
Definition send (env : ClientEnv J) (rq : request) : M ClientState (Z * outcome J) :=
  ensure_auth env ;;
  cs <- get ;;
  lift (ce_request env rq ("Bearer " +:+ py_str (token cs))).

Definition create_post (env : ClientEnv J) (title content submolt : string)
    : M ClientState J :=
  resp <- send env (PostPost title content submolt) ;; lift resp.2.

Definition comment (env : ClientEnv J) (post_id content : string) : M ClientState J :=
  resp <- send env (PostComment post_id content) ;; lift resp.2.

Definition browse_feed (env : ClientEnv J) (submolt : option string)
    : M ClientState J :=
  resp <- send env (GetPosts (if truthy submolt then submolt else None)) ;; lift resp.2.

Definition upvote (env : ClientEnv J) (post_id : string) : M ClientState bool :=
  resp <- send env (PostUpvote post_id) ;; ret (resp.1 =? 200).

End Client.


(** * The vocabulary of the properties *)

(** ** Derived notions *)

(** The offset that [_calculate_next_occurrence] adds for a pattern. *)
Definition period (pattern : string) : timedelta :=
  if String.eqb pattern "daily" then timedelta_days 1
  else if String.eqb pattern "weekly" then timedelta_weeks 1
  else if String.eqb pattern "monthly" then timedelta_days 30
  else timedelta_days 1.

Definition period_of (r : Reminder) : timedelta :=
  period (default ""%string (rem_recurrence_pattern r)).

(** Presence of a keyword in a request, in the raw text or, as the router
    tests it, in the lower-cased text. *)
Definition mentions (word request : string) : Prop :=
  contains word request = true \/ contains word (lower request) = true.

(** Order of two elements by their sort keys. *)
Definition key_le {A} (key : A -> Z) (x y : A) : Prop := key x <= key y.

(** The tasks [get_pending_tasks] selects, before sorting. *)
Definition selected (priority_filter : option string) (la : LifeAssistant) : list Task :=
  let tasks1 := filter (fun t => task_status t ≠ "completed"%string) (tasks la) in
  if truthy priority_filter
  then filter (fun t => Some (task_priority t) = priority_filter) tasks1
  else tasks1.

(** The state after a run of heartbeats, one per environment reading,
    whether they return or raise. *)
Definition run_heartbeats (envs : list HeartbeatEnv) (co : AgentCoordinator)
    : AgentCoordinator :=
  foldl (fun co env => (autonomous_heartbeat env co).2) co envs.

Definition comments (co : AgentCoordinator) : Z := comments_made (daily_stats co).
Definition quota (co : AgentCoordinator) : Z := max_daily_comments (config co).

(** The state of the loop: the position of the iterator, the [due] list
    and the assistant. *)
Definition loop_state : Type := nat * list nat * LifeAssistant.

(** One turn of the loop that does not raise. *)
Inductive iteration (clock : nat -> Z) (now : datetime) : relation loop_state :=
| iteration_visit i due la fired la' :
    (i < length (reminders la))%nat ->
    visit (clock i) now i la = (Returned fired, la') ->
    iteration clock now (i, due, la) (S i, if fired then due ++ [i] else due, la').

(** The invariant of the loop of [check_reminders] started on [la0]: where
    the iterator stands at [i] with [due] collected and the assistant in
    state [la]. *)
Record sweep_inv (now : datetime) (la0 : LifeAssistant)
    (i : nat) (due : list nat) (la : LifeAssistant) : Prop := {
  inv_tasks : tasks la = tasks la0;
  inv_config : la_config la = la_config la0;
  inv_len : (length (reminders la0) <= length (reminders la))%nat;
  inv_pos : (i <= length (reminders la))%nat;
  (* the reminders of the start: marked if visited and due then *)
  inv_old : forall k r0, reminders la0 !! k = Some r0 ->
    reminders la !! k
    = Some (if bool_decide (k < i)%nat && is_due now r0 then mark_triggered r0 else r0);
  (* the reminders appended since: recurring, marked if visited and due *)
  inv_new : forall k r, (length (reminders la0) <= k)%nat ->
    reminders la !! k = Some r ->
    rem_recurring r = true
    /\ rem_is_triggered r = bool_decide (k < i)%nat && (rem_trigger_time r <=? now);
  (* [due] holds the positions visited and marked by this sweep *)
  inv_due : forall k, k ∈ due <->
    (k < i)%nat /\ exists r, reminders la !! k = Some r
      /\ rem_is_triggered r = true /\ rem_trigger_time r <= now
      /\ forall r0, reminders la0 !! k = Some r0 -> rem_is_triggered r0 = false;
  (* a fired reminder that recurs has its successor in the list *)
  inv_succ : forall k r, k ∈ due -> reminders la !! k = Some r -> recurs r = true ->
    exists k' r', reminders la !! k' = Some r'
      /\ (length (reminders la0) <= k')%nat /\ (k < k')%nat
      /\ next_of r = Returned (rem_trigger_time r')
      /\ rem_message r' = rem_message r
      /\ rem_recurrence_pattern r' = rem_recurrence_pattern r;
  (* positions are collected in increasing order *)
  inv_sorted : StronglySorted lt due
}.

Definition triggers_valid (la : LifeAssistant) : Prop :=
  Forall (fun r => datetime_min <= rem_trigger_time r) (reminders la).

(** Every reminder of [la] is at the same position of [la'], unchanged or
    marked as triggered. *)
Definition preserves (la la' : LifeAssistant) : Prop :=
  forall k r, reminders la !! k = Some r ->
    reminders la' !! k = Some r
    \/ (rem_is_triggered r = false /\ reminders la' !! k = Some (mark_triggered r)).

(** One operation on the assistant, with any arguments and any readings
    of the environment, returning or raising. *)
Inductive la_step : relation LifeAssistant :=
| step_add_task secs now title description due_date priority tags la :
    la_step la (add_task secs now title description due_date priority tags la).2
| step_complete_task task_id0 la :
    la_step la (complete_task task_id0 la).2
| step_add_reminder secs message trigger_time recurring pattern la :
    la_step la (add_reminder secs message trigger_time recurring pattern la).2
| step_check_reminders clock now la :
    la_step la (check_reminders clock now la).2.

(** A reminder as a sweep at [now] leaves it. *)
Definition fire (now : datetime) (r : Reminder) : Reminder :=
  if is_due now r then mark_triggered r else r.

(** Whether the reminder at position [k] recurs. *)
Definition recurs_at (la : LifeAssistant) (k : nat) : bool :=
  from_option recurs false (reminders la !! k).

(** The state after a run of requests, whether they return or raise. *)
Definition run_requests (requests : list (RequestEnv * string)) (co : AgentCoordinator)
    : AgentCoordinator :=
  foldl (fun co er => (process_user_request er.1 er.2 co).2) co requests.

(** An ASCII request that goes to the social branch, in an environment
    where [create_post] returns. *)
Definition posts (er : RequestEnv * string) : Prop :=
  isascii er.2 = true
  /\ any_in task_keywords (lower er.2) = false
  /\ any_in search_keywords (lower er.2) = false
  /\ any_in social_keywords (lower er.2) = true
  /\ forall title content, exists result,
       env_create_post er.1 title content = Returned result.

(** The four tests before the [try] block of [autonomous_heartbeat], on
    the state after the sweep. *)
Definition engages (env : HeartbeatEnv) (co : AgentCoordinator) : bool :=
  enable_moltbook (config co) && bool_decide (is_Some (moltbook_client co))
  && (posts_made (daily_stats co) <? max_daily_posts (config co))
  && negb (Qle_bool (2 # 10) (hb_random env)).

(** The lines printed for the fired reminders. *)
Definition notices_of (la : LifeAssistant) (due : list nat) : list string :=
  omap (fun i => (fun r => "⏰ REMINDER: " +:+ rem_message r)%string <$> reminders la !! i)
       due.

(** The text of [generate_daily_summary] for given counts. *)
Definition summary_text (owner : string) (pending high active : nat) : string :=
  newline
  +:+ "📅 Daily Summary for " +:+ owner +:+ newline
  +:+ bar +:+ newline
  +:+ "📝 Pending Tasks: " +:+ str_of_int (Z.of_nat pending)
  +:+ " (High Priority: " +:+ str_of_int (Z.of_nat high) +:+ ")" +:+ newline
  +:+ "⏰ Active Reminders: " +:+ str_of_int (Z.of_nat active) +:+ newline
  +:+ "🤖 Moltbook Status: Active" +:+ newline
  +:+ bar +:+ newline
  +:+ "        ".

(** The token the client holds is usable at [now]. *)
Definition authenticated (now : datetime) (cs : ClientState) : Prop :=
  py_truthy (token cs) = true
  /\ exists expiry, token_expiry cs = Some expiry /\ now < expiry.

(** The steps of a client over time: one of its calls, in an environment
    where one hour after [datetime.now()] is still a datetime. *)
Inductive client_step {J : Type} : relation ClientState :=
| step_authenticate (env : ClientEnv J) cs :
    valid_datetime (ce_auth_now env + timedelta_hours 1) ->
    client_step cs (authenticate env cs).2
| step_send (env : ClientEnv J) rq cs :
    valid_datetime (ce_auth_now env + timedelta_hours 1) ->
    client_step cs (send env rq cs).2.


(** ** Concrete stores, coordinators and environments of the examples *)

Definition default_config : BotConfig :=
  {| moltbook_api_key := ""; moltbook_username := "";
     owner_name := "User"; timezone := "UTC"; check_interval_minutes := 30;
     enable_moltbook := true; enable_calendar := true; enable_reminders := true;
     enable_web_search := true; enable_task_management := true;
     max_daily_posts := 5; max_daily_comments := 10 |}.

(** 2026-01-01T09:00:00 as a [datetime], and the matching [time.time()]. *)
Definition morning : datetime := (739616 * 86400 + 9 * 3600) * us_per_second.
Definition morning_secs : Z := 1767258000.

Definition empty_assistant : LifeAssistant := LifeAssistant_init default_config.
Definition fresh_coordinator : AgentCoordinator :=
  AgentCoordinator_init morning default_config.

Definition quiet_request_env : RequestEnv :=
  {| env_secs := morning_secs; env_now := morning; env_choice := 0;
     env_create_post := fun _ _ => Returned (reply_object (Some "p42"%string)) |}.

Definition flaky_request_env : RequestEnv :=
  {| env_secs := morning_secs; env_now := morning; env_choice := 1;
     env_create_post := fun _ _ => Raised (ClientError "connection reset") |}.

(** An environment in which [create_post] returns a JSON list. *)
Definition list_reply_env : RequestEnv :=
  {| env_secs := morning_secs; env_now := morning; env_choice := 1;
     env_create_post := fun _ _ => Returned (reply_other "list") |}.

Definition recipes_request : string := "Add task to search for recipes".

Definition busy_coordinator : AgentCoordinator :=
  set_daily_stats {| posts_made := 4; comments_made := 9; tasks_completed := 2;
                     last_reset := date_of morning |} fresh_coordinator.

(** A store built by two [add_task] calls: first a task without a due
    date, then a task due at [datetime.max]. *)
Definition someday_store : LifeAssistant :=
  (add_task (morning_secs + 5) (morning + 5 * us_per_second)
     "renew passport" "" (Some datetime_max) "low" None
     (add_task morning_secs morning "water plants" "" None "medium" None
        empty_assistant).2).2.

(** A coordinator with a client handle and a quota of one comment a day,
    and a heartbeat that finds a post to comment on. *)
Definition social_config : BotConfig :=
  {| moltbook_api_key := "key"; moltbook_username := "bot";
     owner_name := "Alex"; timezone := "UTC"; check_interval_minutes := 30;
     enable_moltbook := true; enable_calendar := true; enable_reminders := true;
     enable_web_search := true; enable_task_management := true;
     max_daily_posts := 3; max_daily_comments := 1 |}.

Definition social_coordinator : AgentCoordinator :=
  AgentCoordinator_init morning social_config.

(** The same coordinator under a configuration with a negative comment
    quota. *)
Definition negative_quota_coordinator : AgentCoordinator :=
  AgentCoordinator_init morning
    {| moltbook_api_key := "key"; moltbook_username := "bot";
       owner_name := "Alex"; timezone := "UTC"; check_interval_minutes := 30;
       enable_moltbook := true; enable_calendar := true; enable_reminders := true;
       enable_web_search := true; enable_task_management := true;
       max_daily_posts := 3; max_daily_comments := -1 |}.

Definition chatty_env : HeartbeatEnv :=
  {| hb_reset_now := morning + timedelta_hours 1;
     hb_now := morning + timedelta_hours 1;
     hb_clock := fun _ => morning_secs + 3600;
     hb_random := 1 # 10;
     hb_browse_feed := Returned [Some "p1"%string; Some "p2"%string];
     hb_comment := fun _ _ => Returned tt |}.

(** A store with a daily reminder first due three days and an hour before
    [morning], a one-off reminder due an hour before, and a weekly reminder
    first due eight days before. *)
Definition backlog_store : LifeAssistant :=
  (add_reminder (morning_secs - 9) "weekly review"
     (morning - timedelta_days 8) true (Some "weekly"%string)
     (add_reminder (morning_secs - 10) "call mom"
        (morning - timedelta_hours 1) false None
        (add_reminder (morning_secs - 11) "gym"
           (morning - timedelta_days 3 - timedelta_hours 1) true (Some "daily"%string)
           empty_assistant).2).2).2.

Definition steady_clock : nat -> Z := fun _ => morning_secs.

Definition gym : Reminder :=
  {| rem_id := "rem_1767257989"; rem_message := "gym";
     rem_trigger_time := morning - timedelta_days 3 - timedelta_hours 1;
     rem_recurring := true; rem_recurrence_pattern := Some "daily"%string;
     rem_is_triggered := false |}.

(** The weekly reminder of the backlog as the sweep at [morning] leaves
    it, and its first successor, created by that sweep and fired by it
    too. *)
Definition weekly_review : Reminder :=
  {| rem_id := "rem_1767257991"; rem_message := "weekly review";
     rem_trigger_time := morning - timedelta_days 8;
     rem_recurring := true; rem_recurrence_pattern := Some "weekly"%string;
     rem_is_triggered := true |}.

Definition weekly_review_next : Reminder :=
  {| rem_id := "rem_1767258000"; rem_message := "weekly review";
     rem_trigger_time := morning - timedelta_days 1;
     rem_recurring := true; rem_recurrence_pattern := Some "weekly"%string;
     rem_is_triggered := true |}.

(** A store built by three [add_task] calls, the first two within one
    second, and its tasks. *)
Definition chores : LifeAssistant :=
  (add_task (morning_secs + 60) (morning + timedelta_hours 1)
     "file taxes" "" None "high" None
     (add_task morning_secs morning "water plants" "" None "medium" None
        (add_task morning_secs morning "buy milk" "" (Some (morning + timedelta_days 1))
           "medium" None empty_assistant).2).2).2.

Definition buy_milk : Task :=
  {| task_id := "task_1767258000"; task_title := "buy milk"; task_description := "";
     task_due_date := Some (morning + timedelta_days 1); task_priority := "medium";
     task_status := "pending"; task_created_at := morning; task_tags := [] |}.

Definition water_plants : Task :=
  {| task_id := "task_1767258000"; task_title := "water plants";
     task_description := ""; task_due_date := None; task_priority := "medium";
     task_status := "pending"; task_created_at := morning; task_tags := [] |}.

Definition file_taxes : Task :=
  {| task_id := "task_1767258060"; task_title := "file taxes"; task_description := "";
     task_due_date := None; task_priority := "high"; task_status := "pending";
     task_created_at := morning + timedelta_hours 1; task_tags := [] |}.

(** A store whose only due reminder is flagged recurring and has no
    pattern. *)
Definition patternless_store : LifeAssistant :=
  (add_reminder morning_secs "stretch" (morning - timedelta_hours 2) true None
     empty_assistant).2.

(** A store with a daily reminder at the last datetime, followed by a
    one-off reminder that is due at [morning] already. *)
Definition doomsday_store : LifeAssistant :=
  (add_reminder (morning_secs + 1) "call mom" morning false None
     (add_reminder morning_secs "last day" datetime_max true (Some "daily"%string)
        empty_assistant).2).2.

(** A coordinator with the backlog of reminders, and a heartbeat whose feed
    starts with a post without [id]. *)
Definition backlog_coordinator : AgentCoordinator :=
  set_life_assistant backlog_store social_coordinator.

Definition idless_feed_env : HeartbeatEnv :=
  {| hb_reset_now := morning + timedelta_hours 1;
     hb_now := morning + timedelta_hours 1;
     hb_clock := fun _ => morning_secs + 3600;
     hb_random := 1 # 10;
     hb_browse_feed := Returned [None; Some "p2"%string];
     hb_comment := fun _ _ => Returned tt |}.

(** A server that grants the token [tok-1], a client that authenticated
    at [morning], and a later call; a server that is down. *)
Definition granting_env : ClientEnv string :=
  {| ce_now := morning; ce_auth_now := morning;
     ce_token := fun _ => Returned (200, Returned (py_text "tok-1"));
     ce_request := fun _ header => Returned (200, Returned header) |}.

Definition later_env : ClientEnv string :=
  {| ce_now := morning + timedelta_hours 1 - 1; ce_auth_now := morning + timedelta_hours 1;
     ce_token := fun _ => Raised (ClientError "connection reset");
     ce_request := fun _ header => Returned (200, Returned header) |}.

Definition logged_in : ClientState := (authenticate granting_env (ClientState_init "key")).2.


(** * Properties *)

(** ** The router *)

Lemma any_in_true words text word :
  In word words -> contains word text = true -> any_in words text = true.
Proof. intros Hin Hc. apply existsb_exists. eauto. Qed.

(** The social branch with the feature enabled and no client handle: the
    function returns [None]. *)
Lemma social_action_no_client env co :
  enable_moltbook (config co) = true -> moltbook_client co = None ->
  social_action env co = (Returned None, co).
Proof. intros He Hc. unfold social_action, bind, get. by rewrite He, Hc. Qed.

(** C2 (fails on the code): with the default configuration (social feature
    enabled, empty API key, hence no client handle) the request
    [post to moltbook] makes [process_user_request] return [None], not a
    string; the coordinator is left as it was. *)
Theorem process_user_request_returns_none :
  enable_moltbook (config fresh_coordinator) = true
  /\ moltbook_client fresh_coordinator = None
  /\ process_user_request quiet_request_env "post to moltbook" fresh_coordinator
     = (Returned None, fresh_coordinator).
Proof. vm_compute. done. Qed.

(** Matching is on the lower-cased text: a keyword present in the raw
    text is present after lower-casing, the keywords being lower case. *)
Lemma prefix_lower p s :
  String.prefix p s = true -> String.prefix (lower p) (lower s) = true.
Proof.
  revert p. induction s as [|c s IH]; intros [|d p]; simpl; try done.
  destruct (ascii_dec d c) as [->|]; [|done]. intros H.
  destruct (ascii_dec _ _); [auto|done].
Qed.

Lemma contains_lower word s :
  contains word s = true -> contains (lower word) (lower s) = true.
Proof.
  induction s as [|c s IH]; simpl.
  - rewrite !orb_false_r. apply (prefix_lower word "").
  - intros [H|H]%orb_true_iff; apply orb_true_iff.
    + left. apply (prefix_lower word (String c s) H).
    + right. auto.
Qed.

Lemma mentions_lower words word request :
  Forall (fun w => lower w = w) words -> In word words -> mentions word request ->
  contains word (lower request) = true.
Proof.
  intros Hlow Hin [Hraw|Hlower]; [|done].
  rewrite Forall_forall in Hlow. rewrite <- (Hlow word) by (by apply list_elem_of_In).
  by apply contains_lower.
Qed.

Lemma keywords_lower_case :
  Forall (fun w => lower w = w) task_keywords
  /\ Forall (fun w => lower w = w) search_keywords.
Proof. split; repeat constructor. Qed.

(** A request that mentions a task keyword is handled by the task branch,
    whatever else it mentions. *)
Lemma task_keyword_wins env request co word :
  In word task_keywords -> mentions word request ->
  process_user_request env request co = task_management env request co.
Proof.
  intros Hin Hc. unfold process_user_request.
  by rewrite (any_in_true _ _ _ Hin
                (mentions_lower _ _ _ (proj1 keywords_lower_case) Hin Hc)).
Qed.

Lemma task_management_outcome env request co :
  (task_management env request co).1 = Raised OverflowError
  \/ (task_management env request co).1
     = Returned (Some ("✅ Reminder set: " +:+ request)%string)
  \/ (task_management env request co).1
     = Returned (Some ("✅ Task added: " +:+ request)%string).
Proof.
  unfold task_management. destruct (contains "remind" (lower request)).
  - unfold bind, lift, datetime_add.
    destruct (_ && _); [right; left | left]; done.
  - right; right. done.
Qed.

(** C6: a request whose text (raw, or lower-cased as the router reads it)
    contains a task keyword and a search keyword is handled by the task
    branch (rule 1), never by the information-retrieval branch: the outcome
    is that of the task branch, a reminder or a task is created with the
    raw text, and the reply is the matching confirmation, not the search
    result. *)
Theorem router_task_before_search env request co tword sword :
  In tword task_keywords -> mentions tword request ->
  In sword search_keywords -> mentions sword request ->
  process_user_request env request co = task_management env request co
  /\ (process_user_request env request co).1
     <> Returned (Some (search_information request))
  /\ (contains "remind" (lower request) = false ->
      process_user_request env request co
      = (Returned (Some ("✅ Task added: " +:+ request)%string),
         set_life_assistant
           (add_task (env_secs env) (env_now env) request
              "Created from voice/text command" None "medium" None
              (life_assistant co)).2 co))
  /\ (contains "remind" (lower request) = true ->
      env_now env + timedelta_hours 1 <= datetime_max -> datetime_min <= env_now env ->
      process_user_request env request co
      = (Returned (Some ("✅ Reminder set: " +:+ request)%string),
         set_life_assistant
           (add_reminder (env_secs env) request (env_now env + timedelta_hours 1)
              false None (life_assistant co)).2 co)).
Proof.
  intros Ht Hct _ _. rewrite (task_keyword_wins env request co tword Ht Hct).
  split; [done|]. split.
  - destruct (task_management_outcome env request co) as [H|[H|H]];
      rewrite H; [done| |]; intros Heq; vm_compute in Heq; discriminate.
  - unfold task_management. split; intros Hr.
    + by rewrite Hr.
    + intros Hmax Hmin. rewrite Hr. unfold bind, lift, datetime_add.
      replace ((datetime_min <=? _) && _) with true; [done|].
      symmetry. apply andb_true_iff. split; apply Z.leb_le; time_lia.
Qed.

Lemma router_task_before_search_witness :
  process_user_request quiet_request_env recipes_request fresh_coordinator
  = task_management quiet_request_env recipes_request fresh_coordinator
  /\ (process_user_request quiet_request_env recipes_request fresh_coordinator).1
     = Returned (Some "✅ Task added: Add task to search for recipes"%string).
Proof.
  assert (In "task"%string task_keywords) as Ht by (simpl; tauto).
  assert (In "search"%string search_keywords) as Hs by (simpl; tauto).
  destruct (router_task_before_search quiet_request_env recipes_request
              fresh_coordinator "task" "search" Ht (or_introl eq_refl)
              Hs (or_introl eq_refl))
    as (Hbranch & _ & Htask & _).
  split; [exact Hbranch|]. rewrite (Htask eq_refl). reflexivity.
Defined.

(** The five rules of the router, first match first. *)
Lemma router_rule_order env request co :
  process_user_request env request co
  = if any_in task_keywords (lower request) then task_management env request co
    else if any_in search_keywords (lower request)
         then (Returned (Some (search_information request)), co)
    else if any_in social_keywords (lower request) then social_action env co
    else if any_in summary_keywords (lower request)
         then (Returned (Some (generate_daily_summary (life_assistant co))), co)
    else (Returned (Some (_generate_conversational_response (env_choice env) request)),
          co).
Proof. unfold process_user_request. by repeat case_match. Qed.

(** [process_user_request] returns [None] exactly in the social branch
    with the feature enabled and no client handle. *)
Lemma process_user_request_none_iff env request co :
  (process_user_request env request co).1 = Returned None
  <-> any_in task_keywords (lower request) = false
      /\ any_in search_keywords (lower request) = false
      /\ any_in social_keywords (lower request) = true
      /\ enable_moltbook (config co) = true
      /\ moltbook_client co = None.
Proof.
  rewrite router_rule_order.
  destruct (any_in task_keywords (lower request)).
  { split; [|by intros [? _]].
    destruct (task_management_outcome env request co) as [H|[H|H]];
      rewrite H; discriminate. }
  destruct (any_in search_keywords (lower request)); [split; [done|by intros (_&?&_)]|].
  destruct (any_in social_keywords (lower request)).
  - unfold social_action, bind, get, lift, modify, ret.
    destruct (enable_moltbook (config co)); simpl; [|split; [done|by intros (_&_&_&?&_)]].
    destruct (moltbook_client co) as [client|]; [|done].
    split; [|by intros (_&_&_&_&?)].
    by destruct (env_create_post env _ _) as [[post_id|type_name]|e].
  - destruct (any_in summary_keywords (lower request));
      (split; [done|by intros (_&_&?&_)]).
Qed.

(** An exception of the collaborator in the social branch is not caught:
    the request raises it, and the post counter stays as it was. *)
Lemma process_user_request_raises :
  process_user_request flaky_request_env "share my day" social_coordinator
  = (Raised (ClientError "connection reset"), social_coordinator).
Proof. vm_compute. reflexivity. Qed.

(** ** Daily counters *)

(** C7: reconciling on a day other than [last_reset] zeroes the counters
    and records the new day; reconciling on the day of [last_reset] changes
    nothing. *)
Theorem reset_daily_stats_rollover now co :
  (date_of now <> last_reset (daily_stats co) ->
     exists co', reset_daily_stats now co = (Returned tt, co')
       /\ posts_made (daily_stats co') = 0
       /\ comments_made (daily_stats co') = 0
       /\ last_reset (daily_stats co') = date_of now
       /\ co' = set_daily_stats (fresh_stats (date_of now)) co)
  /\ (date_of now = last_reset (daily_stats co) ->
     reset_daily_stats now co = (Returned tt, co)).
Proof.
  unfold reset_daily_stats, bind, get, modify. split; intros H.
  - rewrite bool_decide_true by done. eexists. repeat split.
  - rewrite bool_decide_false by (intros Hne; by apply Hne). done.
Qed.

Lemma reset_daily_stats_rollover_witness :
  (exists co', reset_daily_stats (morning + us_per_day) busy_coordinator
               = (Returned tt, co')
     /\ posts_made (daily_stats co') = 0
     /\ comments_made (daily_stats co') = 0
     /\ last_reset (daily_stats co') = date_of (morning + us_per_day)
     /\ co' = set_daily_stats (fresh_stats (date_of (morning + us_per_day)))
                busy_coordinator)
  /\ reset_daily_stats (morning + 3600 * us_per_second) busy_coordinator
     = (Returned tt, busy_coordinator).
Proof.
  split.
  - apply (reset_daily_stats_rollover (morning + us_per_day) busy_coordinator).
    vm_compute. discriminate.
  - apply (reset_daily_stats_rollover (morning + 3600 * us_per_second) busy_coordinator).
    reflexivity.
Defined.

(** ** Next occurrence *)

Lemma datetime_add_in_range t d :
  datetime_min <= t + d -> t + d <= datetime_max ->
  datetime_add t d = Returned (t + d).
Proof.
  intros Hlo Hhi. unfold datetime_add.
  by rewrite (proj2 (Z.leb_le _ _) Hlo), (proj2 (Z.leb_le _ _) Hhi).
Qed.

Lemma datetime_add_returned t d t' :
  datetime_add t d = Returned t' -> t' = t + d /\ valid_datetime t'.
Proof.
  unfold datetime_add, valid_datetime.
  destruct (datetime_min <=? t + d) eqn:Hlo; [|done].
  destruct (t + d <=? datetime_max) eqn:Hhi; [|done].
  simpl. intros [= Heq]. subst t'. apply Z.leb_le in Hlo, Hhi. done.
Qed.

Lemma string_eqb_ne (a b : string) : a <> b -> String.eqb a b = false.
Proof. intros H. by apply String.eqb_neq. Qed.

(** The claim of C9 as stated fails at the end of the datetime range: a
    malformed pattern at [datetime.max] raises [OverflowError]. *)
Lemma next_occurrence_overflows_at_max :
  valid_datetime datetime_max
  /\ _calculate_next_occurrence datetime_max "yearly" = Raised OverflowError.
Proof. split; [unfold valid_datetime; vm_compute; split; discriminate|reflexivity]. Qed.

(** C9 (amended): for a pattern that is none of [daily], [weekly],
    [monthly] the next occurrence is computed as for the daily cadence:
    [t + 1 day] whenever that is still a datetime (the computation fails
    only where [t + 1 day] exceeds [datetime.max], exactly as for [daily]). *)
Theorem next_occurrence_fallback t pattern :
  pattern <> "daily"%string -> pattern <> "weekly"%string ->
  pattern <> "monthly"%string ->
  _calculate_next_occurrence t pattern = _calculate_next_occurrence t "daily"
  /\ (valid_datetime t -> t + timedelta_days 1 <= datetime_max ->
      _calculate_next_occurrence t pattern = Returned (t + timedelta_days 1)).
Proof.
  intros Hd Hw Hm. unfold _calculate_next_occurrence.
  rewrite !string_eqb_ne by done. simpl. split; [done|].
  intros [Hlo _] Hhi. apply datetime_add_in_range; [|done]. time_lia.
Qed.

Lemma next_occurrence_fallback_witness :
  _calculate_next_occurrence morning "fortnightly"
  = _calculate_next_occurrence morning "daily"
  /\ _calculate_next_occurrence morning "fortnightly"
     = Returned (morning + timedelta_days 1).
Proof.
  destruct (next_occurrence_fallback morning "fortnightly") as [Hsame Hval];
    [discriminate..|].
  split; [exact Hsame|]. apply Hval.
  - unfold valid_datetime. vm_compute. split; discriminate.
  - vm_compute. discriminate.
Defined.

(** ** Pending tasks *)

Section Sorted.
Context {A : Type} (key : A -> Z).

Lemma insert_sorted_elem_of x l y :
  y ∈ insert_sorted key x l <-> y = x \/ y ∈ l.
Proof.
  induction l as [|z l IH]; simpl.
  - rewrite list_elem_of_singleton, elem_of_nil. tauto.
  - destruct (key z <? key x); rewrite !elem_of_cons, ?IH; tauto.
Qed.

Lemma insert_sorted_perm x l : insert_sorted key x l ≡ₚ x :: l.
Proof.
  induction l as [|z l IH]; simpl; [done|].
  destruct (key z <? key x); [|done].
  by rewrite IH, Permutation_swap.
Qed.

Lemma sorted_perm l : sorted key l ≡ₚ l.
Proof.
  induction l as [|x l IH]; simpl; [done|].
  by rewrite insert_sorted_perm, IH.
Qed.

Lemma insert_sorted_sorted x l :
  StronglySorted (key_le key) l -> StronglySorted (key_le key) (insert_sorted key x l).
Proof.
  induction 1 as [|z l Hl IH Hz]; simpl.
  - repeat constructor.
  - destruct (key z <? key x) eqn:Hlt.
    + constructor; [done|]. apply Forall_forall. intros y Hy.
      apply insert_sorted_elem_of in Hy as [->|Hy].
      * apply Z.ltb_lt in Hlt. unfold key_le. lia.
      * by eapply Forall_forall in Hz.
    + apply Z.ltb_ge in Hlt. constructor; [by constructor|].
      constructor; [done|]. eapply Forall_impl; [exact Hz|].
      unfold key_le. intros; simpl in *. lia.
Qed.

Lemma sorted_sorted l : StronglySorted (key_le key) (sorted key l).
Proof.
  induction l as [|x l IH]; simpl; [constructor|]. by apply insert_sorted_sorted.
Qed.

(** The sort is stable: elements with one key keep their order. *)
Lemma insert_sorted_stable k x l :
  StronglySorted (key_le key) l ->
  filter (fun y => key y = k) (insert_sorted key x l)
  = filter (fun y => key y = k) (x :: l).
Proof.
  induction 1 as [|z l Hl IH Hz]; simpl; [done|].
  destruct (key z <? key x) eqn:Hlt; [|done].
  apply Z.ltb_lt in Hlt. rewrite !filter_cons, IH, !filter_cons.
  destruct (decide (key z = k)), (decide (key x = k)); try done. lia.
Qed.

Lemma sorted_stable k l :
  filter (fun y => key y = k) (sorted key l) = filter (fun y => key y = k) l.
Proof.
  induction l as [|x l IH]; simpl; [done|].
  rewrite insert_sorted_stable by apply sorted_sorted.
  by rewrite !filter_cons, IH.
Qed.

Lemma sorted_lookup_le l i j x y :
  (i < j)%nat -> sorted key l !! i = Some x -> sorted key l !! j = Some y ->
  key x <= key y.
Proof.
  intros Hij Hx Hy. pose proof (sorted_sorted l) as Hs.
  revert i j Hij Hx Hy. induction Hs as [|z l' Hl IH Hz]; intros i j Hij Hx Hy.
  - done.
  - destruct j as [|j]; [lia|]. simpl in Hy. destruct i as [|i]; simpl in Hx.
    + injection Hx as ->. eapply Forall_forall in Hz; [exact Hz|].
      by eapply list_elem_of_lookup_2.
    + eapply IH; [|done..]. lia.
Qed.
End Sorted.

Lemma get_pending_tasks_sorted priority_filter la :
  get_pending_tasks priority_filter la = sorted due_key (selected priority_filter la).
Proof. reflexivity. Qed.

Lemma selected_not_completed priority_filter la t :
  t ∈ selected priority_filter la ->
  task_status t <> "completed"%string /\ t ∈ tasks la.
Proof.
  unfold selected. destruct (truthy priority_filter).
  - intros [_ H]%list_elem_of_filter. by apply list_elem_of_filter in H.
  - intros H. by apply list_elem_of_filter in H.
Qed.

(** The claim of C5 as stated fails: a task due at [datetime.max] has the
    sort key of the tasks without a due date, and the stable sort leaves it
    after an undated task added before it. *)
Lemma pending_undated_before_dated :
  exists a b,
    get_pending_tasks None someday_store = [a; b]
    /\ task_title a = "water plants"%string /\ task_due_date a = None
    /\ task_title b = "renew passport"%string
    /\ task_due_date b = Some datetime_max.
Proof. eexists _, _. vm_compute. repeat split. Qed.

(** C5 (amended): for every store, so for the store that any sequence of
    [add_task] calls leaves, the list that [get_pending_tasks] returns,
    with or without a priority filter, contains only non-completed tasks
    of the store, has its due dates in ascending order, and has every
    task with a due date earlier than [datetime.max] before every task
    without a due date. *)
Theorem get_pending_tasks_order priority_filter la :
  let pending := get_pending_tasks priority_filter la in
  (forall t, t ∈ pending -> task_status t <> "completed"%string /\ t ∈ tasks la)
  /\ (forall i j a b da db,
        (i < j)%nat -> pending !! i = Some a -> pending !! j = Some b ->
        task_due_date a = Some da -> task_due_date b = Some db -> da <= db)
  /\ (forall i j a b da,
        pending !! i = Some a -> pending !! j = Some b ->
        task_due_date a = Some da -> da < datetime_max ->
        task_due_date b = None -> (i < j)%nat).
Proof.
  simpl. rewrite get_pending_tasks_sorted.
  split; [|split].
  - intros t Ht. rewrite sorted_perm in Ht. by apply selected_not_completed in Ht.
  - intros i j a b da db Hij Ha Hb Hda Hdb.
    pose proof (sorted_lookup_le due_key _ i j a b Hij Ha Hb) as Hle.
    unfold due_key in Hle. by rewrite Hda, Hdb in Hle.
  - intros i j a b da Ha Hb Hda Hlt Hdb.
    destruct (Nat.lt_trichotomy i j) as [Hij|[->|Hji]]; [done| |].
    + rewrite Ha in Hb. injection Hb as ->. congruence.
    + pose proof (sorted_lookup_le due_key _ j i b a Hji Hb Ha) as Hle.
      unfold due_key in Hle. rewrite Hda, Hdb in Hle. simpl in Hle. lia.
Qed.

(** ** The comment quota of the heartbeat *)

(** The [try] block comments at most once, and only below the quota. *)
Lemma engage_effect env co :
  (engage env co).2 = co
  \/ (comments co < quota co /\ (engage env co).2 = incr_comments co).
Proof.
  unfold engage, bind, lift, get, modify, comments, quota.
  destruct (hb_browse_feed env) as [[|[post_id|] feed]|e]; simpl; try (by left).
  - destruct (_ <? _) eqn:Hlt; simpl; [|by left].
    destruct (hb_comment env post_id _); simpl; [|by left].
    right. by apply Z.ltb_lt in Hlt.
  - destruct (_ <? _); simpl; by left.
Qed.

Lemma reset_daily_stats_effect now co :
  (reset_daily_stats now co).1 = Returned tt
  /\ config (reset_daily_stats now co).2 = config co
  /\ moltbook_client (reset_daily_stats now co).2 = moltbook_client co
  /\ ((date_of now = last_reset (daily_stats co) /\ (reset_daily_stats now co).2 = co)
      \/ (date_of now <> last_reset (daily_stats co)
          /\ daily_stats (reset_daily_stats now co).2 = fresh_stats (date_of now))).
Proof.
  unfold reset_daily_stats, bind, get, modify.
  destruct (decide (date_of now = last_reset (daily_stats co))) as [Heq|Hne].
  - rewrite bool_decide_false by (intros Hne; by apply Hne). simpl. tauto.
  - rewrite bool_decide_true by done. simpl. tauto.
Qed.

(** What one heartbeat does to the counters and the configuration, seen
    from the state [co1] that the reconciliation at its start leaves. *)
Lemma heartbeat_effect env co :
  let co1 := (reset_daily_stats (hb_reset_now env) co).2 in
  let co' := (autonomous_heartbeat env co).2 in
  config co' = config co
  /\ (daily_stats co' = daily_stats co1
      \/ (comments co1 < quota co /\ daily_stats co' = daily_stats (incr_comments co1))).
Proof.
  destruct (reset_daily_stats_effect (hb_reset_now env) co) as (Hret & Hcfg & _ & _).
  cbv zeta. unfold autonomous_heartbeat, bind, in_assistant, zoom, get, try_except, ret.
  destruct (reset_daily_stats (hb_reset_now env) co) as [o co1].
  simpl in Hret, Hcfg. subst o. cbn [snd].
  destruct (check_reminders (hb_clock env) (hb_now env) (life_assistant co1))
    as [[due_reminders|e] la']; [|cbn; rewrite <- Hcfg; auto].
  set (co2 := set_life_assistant la' co1).
  assert (config co2 = config co1) as Hcfg2 by done.
  assert (daily_stats co2 = daily_stats co1) as Hds2 by done.
  destruct (_ && _); [|cbn; rewrite <- Hcfg; auto].
  destruct (negb _); [|cbn; rewrite <- Hcfg; auto].
  destruct (engage_effect env co2) as [Hsame|[Hlt Hincr]];
    destruct (engage env co2) as [[[]|e] co3]; cbn [snd fst] in *; subst co3;
    (split; [cbn; congruence|]); auto.
  - right. unfold comments, quota in *. rewrite <- Hcfg, <- Hds2, <- Hcfg2. done.
  - right. unfold comments, quota in *. rewrite <- Hcfg, <- Hds2, <- Hcfg2. done.
Qed.

Lemma heartbeat_keeps_quota env co :
  0 <= quota co -> comments co <= quota co ->
  let co' := (autonomous_heartbeat env co).2 in
  quota co' = quota co /\ comments co' <= quota co'.
Proof.
  intros Hq Hc. cbv zeta.
  destruct (heartbeat_effect env co) as [Hcfg Hstats].
  unfold quota, comments in *. rewrite Hcfg. split; [done|].
  destruct (reset_daily_stats_effect (hb_reset_now env) co)
    as (_ & _ & _ & [[_ Hsame]|[_ Hfresh]]).
  - rewrite Hsame in Hstats. destruct Hstats as [->|[Hlt ->]]; simpl; lia.
  - destruct Hstats as [->|[Hlt ->]]; simpl; rewrite Hfresh in *; simpl in *; lia.
Qed.

(** The quota holds over any run of heartbeats, across day changes too. *)
Lemma run_heartbeats_keeps_quota envs co :
  0 <= quota co -> comments co <= quota co ->
  quota (run_heartbeats envs co) = quota co
  /\ comments (run_heartbeats envs co) <= quota co.
Proof.
  revert co. induction envs as [|env envs IH]; intros co Hq Hc; simpl; [done|].
  destruct (heartbeat_keeps_quota env co Hq Hc) as [Hq' Hc'].
  destruct (IH (autonomous_heartbeat env co).2) as [IH1 IH2]; [lia..|].
  split; [congruence|]. lia.
Qed.

(** The claim of C8 as stated fails for a negative quota: the counter
    starts at 0, which is above [max_daily_comments = -1], and a heartbeat
    of the day leaves it there. *)
Lemma comments_exceed_negative_quota :
  comments_made (daily_stats negative_quota_coordinator) = 0
  /\ date_of (hb_reset_now chatty_env)
     = last_reset (daily_stats negative_quota_coordinator)
  /\ max_daily_comments
       (config (run_heartbeats [chatty_env] negative_quota_coordinator)) = -1
  /\ comments_made
       (daily_stats (run_heartbeats [chatty_env] negative_quota_coordinator)) = 0
  /\ max_daily_comments (config (run_heartbeats [chatty_env] negative_quota_coordinator))
     < comments_made
         (daily_stats (run_heartbeats [chatty_env] negative_quota_coordinator)).
Proof. vm_compute. done. Qed.

(** C8 (amended): when [max_daily_comments] is not negative, over any run
    of heartbeats within one calendar day that starts with
    [comments_made = 0], [comments_made] never exceeds
    [max_daily_comments]; and a heartbeat of that day either leaves the
    counter as it is or adds one to it, the latter only when it was below
    the quota. *)
Theorem comments_never_exceed_quota envs co :
  0 <= max_daily_comments (config co) ->
  comments_made (daily_stats co) = 0 ->
  Forall (fun env => date_of (hb_reset_now env) = last_reset (daily_stats co)) envs ->
  let co' := run_heartbeats envs co in
  comments_made (daily_stats co') <= max_daily_comments (config co')
  /\ forall env, date_of (hb_reset_now env) = last_reset (daily_stats co') ->
       let co'' := (autonomous_heartbeat env co').2 in
       comments_made (daily_stats co'') = comments_made (daily_stats co')
       \/ (comments_made (daily_stats co') < max_daily_comments (config co')
           /\ comments_made (daily_stats co'') = comments_made (daily_stats co') + 1).
Proof.
  intros Hq H0 _. cbv zeta. split.
  - destruct (run_heartbeats_keeps_quota envs co) as [H1 H2];
      unfold quota, comments in *; [lia..|]. rewrite H1. done.
  - intros env Hday. set (co' := run_heartbeats envs co) in *.
    destruct (heartbeat_effect env co') as [_ Hstats].
    destruct (reset_daily_stats_effect (hb_reset_now env) co')
      as (_ & _ & _ & [[_ Hsame]|[Hne _]]); [|done].
    rewrite Hsame in Hstats. unfold comments, quota in Hstats.
    destruct Hstats as [->|[Hlt ->]]; simpl; auto.
Qed.

Lemma comments_never_exceed_quota_witness :
  comments_made (daily_stats (run_heartbeats [chatty_env; chatty_env; chatty_env]
                                social_coordinator)) = 1
  /\ comments_made (daily_stats (run_heartbeats [chatty_env; chatty_env; chatty_env]
                                   social_coordinator))
     <= max_daily_comments
          (config (run_heartbeats [chatty_env; chatty_env; chatty_env]
                     social_coordinator)).
Proof.
  split; [vm_compute; reflexivity|].
  apply (comments_never_exceed_quota [chatty_env; chatty_env; chatty_env]
           social_coordinator).
  - vm_compute. discriminate.
  - reflexivity.
  - repeat constructor.
Defined.

(** ** The sweep as an iteration *)

Lemma sweep_step clock now i due la :
  sweep clock now i due la =
  if decide (i < length (reminders la))%nat then
    match visit (clock i) now i la with
    | (Returned fired, la') =>
        sweep clock now (S i) (if fired then due ++ [i] else due) la'
    | (Raised e, la') => (Raised e, la')
    end
  else (Returned due, la).
Proof.
  rewrite sweep_equation_1.
  destruct (decide (i < length (reminders la))%nat) as [Hi|Hi]; simpl; [|done].
  unfold inspect.
  destruct (visit (clock i) now i la) as [[fired|e] la']; reflexivity.
Qed.

(** A sweep that returns has run turn after turn up to the end of the
    list as it then stands. *)
Lemma sweep_returned clock now i due la due' la' :
  sweep clock now i due la = (Returned due', la') ->
  exists j, rtc (iteration clock now) (i, due, la) (j, due', la')
            /\ (length (reminders la') <= j)%nat.
Proof.
  remember (sweep_measure now i (reminders la)) as m eqn:Hm.
  revert i due la Hm. induction (lt_wf m) as [m _ IH]. intros i due la -> Hs.
  rewrite sweep_step in Hs.
  destruct (decide (i < length (reminders la))%nat) as [Hi|Hi].
  - destruct (visit (clock i) now i la) as [[fired|e] la1] eqn:Hv; [|done].
    destruct (IH _ (visit_measure _ _ _ _ _ _ Hi Hv) _ _ _ eq_refl Hs)
      as (j & Hrtc & Hj).
    exists j. split; [|done]. eapply rtc_l; [|exact Hrtc]. by constructor.
  - injection Hs as <- <-. exists i. split; [done|lia].
Qed.

(** A sweep that raises has run some turns and then a visit raised. *)
Lemma sweep_raised clock now i due la e la' :
  sweep clock now i due la = (Raised e, la') ->
  exists j due_j la_j,
    rtc (iteration clock now) (i, due, la) (j, due_j, la_j)
    /\ (j < length (reminders la_j))%nat
    /\ visit (clock j) now j la_j = (Raised e, la').
Proof.
  remember (sweep_measure now i (reminders la)) as m eqn:Hm.
  revert i due la Hm. induction (lt_wf m) as [m _ IH]. intros i due la -> Hs.
  rewrite sweep_step in Hs.
  destruct (decide (i < length (reminders la))%nat) as [Hi|Hi]; [|done].
  destruct (visit (clock i) now i la) as [[fired|e1] la1] eqn:Hv.
  - destruct (IH _ (visit_measure _ _ _ _ _ _ Hi Hv) _ _ _ eq_refl Hs)
      as (j & due_j & la_j & Hrtc & Hj & Hvj).
    exists j, due_j, la_j. split; [|done]. eapply rtc_l; [|exact Hrtc]. by constructor.
  - injection Hs as <- <-. by exists i, due, la.
Qed.

(** What a visit that returns does to the list, in one formula. *)
Lemma visit_effect secs now i la fired la' :
  (i < length (reminders la))%nat ->
  visit secs now i la = (Returned fired, la') ->
  exists r extra,
    reminders la !! i = Some r /\ fired = is_due now r
    /\ tasks la' = tasks la /\ la_config la' = la_config la
    /\ reminders la'
       = <[i := if fired then mark_triggered r else r]> (reminders la) ++ extra
    /\ ((extra = [] /\ fired && recurs r = false)
        \/ exists t, extra = [successor secs r t] /\ fired = true
                     /\ recurs r = true /\ next_of r = Returned t).
Proof.
  intros Hi Hv. pose proof (visit_cases secs now i la Hi) as Hc. rewrite Hv in Hc.
  inversion Hc as [r Hr Hdue|r Hr Hdue Hrec|r t Hr Hdue Hrec Hnext|]; subst.
  - exists r, []. rewrite Hdue, app_nil_r, list_insert_id by done. eauto 10.
  - exists r, []. rewrite Hdue, Hrec, app_nil_r. simpl. eauto 10.
  - exists r, [successor secs r t]. rewrite Hdue. simpl. eauto 12.
Qed.

Lemma is_due_spec now r :
  is_due now r = true <-> rem_is_triggered r = false /\ rem_trigger_time r <= now.
Proof.
  unfold is_due. rewrite andb_true_iff, negb_true_iff, Z.leb_le. done.
Qed.

(** Positions below the length of the list after a visit. *)
Lemma visit_lookup_old (rems : list Reminder) i x extra k :
  (k < length rems)%nat ->
  (<[i := x]> rems ++ extra) !! k = if decide (k = i) then Some x else rems !! k.
Proof.
  intros Hk. rewrite lookup_app_l by (by rewrite length_insert).
  destruct (decide (k = i)) as [->|Hne].
  - by apply list_lookup_insert_eq.
  - by apply list_lookup_insert_ne.
Qed.

Lemma visit_lookup_new (rems : list Reminder) i x extra k :
  (length rems <= k)%nat ->
  (<[i := x]> rems ++ extra) !! k = extra !! (k - length rems)%nat.
Proof.
  intros Hk. rewrite lookup_app_r by (by rewrite length_insert).
  by rewrite length_insert.
Qed.

Lemma sweep_inv_init now la0 : sweep_inv now la0 0 [] la0.
Proof.
  split; try done; try lia.
  - intros k r Hk Hr. apply lookup_lt_Some in Hr. lia.
  - intros k. split; [by intros ?%elem_of_nil|]. intros [? _]. lia.
  - intros k r ?%elem_of_nil. done.
  - constructor.
Qed.

Lemma bool_decide_lt_succ k i :
  k <> i -> bool_decide (k < S i)%nat = bool_decide (k < i)%nat.
Proof. intros. apply bool_decide_ext. lia. Qed.

Lemma StronglySorted_snoc (l : list nat) i :
  StronglySorted lt l -> Forall (fun k => (k < i)%nat) l ->
  StronglySorted lt (l ++ [i]).
Proof.
  induction 1 as [|k l Hl IH Hk]; intros Hall; simpl.
  - repeat constructor.
  - apply Forall_cons in Hall as [Hki Hall]. constructor; [auto|].
    apply Forall_app. split; [done|]. by constructor.
Qed.

Lemma sweep_inv_step clock now la0 i due la st' :
  sweep_inv now la0 i due la ->
  iteration clock now (i, due, la) st' ->
  sweep_inv now la0 st'.1.1 st'.1.2 st'.2.
Proof.
  intros Hinv Hit. inversion Hit as [i1 due1 la1 fired la' Hi Hv]; subst. simpl.
  destruct (visit_effect _ _ _ _ _ _ Hi Hv)
    as (r & extra & Hr & Hfired & Htasks & Hcfg & Hrems & Hextra).
  set (x := if fired then mark_triggered r else r) in *.
  assert (length extra <= 1)%nat as Hlen_extra.
  { destruct Hextra as [[-> _]|(t & -> & _)]; simpl; lia. }
  assert (forall k, (k < length (reminders la))%nat ->
            reminders la' !! k = if decide (k = i) then Some x else reminders la !! k)
    as Hold.
  { intros k Hk. rewrite Hrems. by apply visit_lookup_old. }
  assert (forall k, (length (reminders la) <= k)%nat ->
            reminders la' !! k = extra !! (k - length (reminders la))%nat) as Hnew.
  { intros k Hk. rewrite Hrems. by apply visit_lookup_new. }
  assert (rem_message x = rem_message r
          /\ rem_trigger_time x = rem_trigger_time r
          /\ rem_recurrence_pattern x = rem_recurrence_pattern r
          /\ rem_recurring x = rem_recurring r
          /\ recurs x = recurs r /\ next_of x = next_of r) as (Hxm & Hxt & Hxp & Hxr & Hxrec & Hxn).
  { unfold x. by destruct fired. }
  destruct Hinv as [Ht Hc Hlen Hpos Hio Hin Hid His Hsorted].
  split.
  - congruence.
  - congruence.
  - rewrite Hrems, length_app, length_insert. lia.
  - rewrite Hrems, length_app, length_insert. lia.
  - (* old *)
    intros k r0 Hk0. pose proof (lookup_lt_Some _ _ _ Hk0) as Hklt.
    rewrite Hold by lia. specialize (Hio k r0 Hk0).
    destruct (decide (k = i)) as [->|Hne].
    + rewrite Hr in Hio. rewrite bool_decide_false in Hio by lia. simpl in Hio.
      injection Hio as ->. rewrite bool_decide_true by lia. simpl.
      unfold x. rewrite Hfired. done.
    + by rewrite Hio, bool_decide_lt_succ.
  - (* new *)
    intros k r' Hk Hr'.
    destruct (decide (k < length (reminders la))%nat) as [Hklt|Hkge].
    + rewrite Hold in Hr' by done. destruct (decide (k = i)) as [->|Hne].
      * injection Hr' as <-. destruct (Hin i r Hk Hr) as [Hrec Htrig].
        rewrite bool_decide_false in Htrig by lia. simpl in Htrig.
        rewrite Hxr, Hxt. split; [done|]. rewrite bool_decide_true by lia. simpl.
        unfold x. rewrite Hfired. unfold is_due. rewrite Htrig. simpl.
        by destruct (rem_trigger_time r <=? now).
      * destruct (Hin k r' Hk Hr') as [Hrec Htrig]. split; [done|].
        by rewrite Htrig, bool_decide_lt_succ.
    + rewrite Hnew in Hr' by lia.
      destruct Hextra as [[-> _]|(t & -> & _)]; [done|].
      destruct (k - length (reminders la))%nat eqn:Hz; [|done].
      injection Hr' as <-. simpl. split; [done|].
      rewrite bool_decide_false by lia. done.
  - (* due *)
    assert (forall k, k ∈ (if fired then due ++ [i] else due)
                      <-> k ∈ due \/ (k = i /\ fired = true)) as Hmem.
    { intros k. destruct fired.
      - rewrite elem_of_app, list_elem_of_singleton. tauto.
      - split; [auto|]. by intros [?|[_ ?]]. }
    intros k. rewrite Hmem, Hid. split.
    + intros [(Hk & rk & Hrk & Htrig & Htime & Horig)|[-> Hf]].
      * split; [lia|]. exists rk. rewrite Hold by (by eapply lookup_lt_Some).
        rewrite decide_False by lia. done.
      * split; [lia|]. exists x. rewrite Hold, decide_True by done.
        assert (is_due now r = true) as [Hut Htime]%is_due_spec by congruence.
        split; [done|]. split; [unfold x; by rewrite Hf|].
        split; [by rewrite Hxt|]. intros r0 Hr0. apply Hio in Hr0.
        rewrite Hr, bool_decide_false in Hr0 by lia. simpl in Hr0. congruence.
    + intros (Hk & rk & Hrk & Htrig & Htime & Horig).
      pose proof (lookup_lt_Some _ _ _ Hrk) as Hklt.
      destruct (decide (k < length (reminders la))%nat) as [Hkl|Hkl].
      * rewrite Hold in Hrk by done. destruct (decide (k = i)) as [->|Hne].
        -- right. split; [done|]. injection Hrk as <-.
           destruct fired eqn:Hf; [done|]. exfalso. unfold x in *.
           destruct (decide (i < length (reminders la0))%nat) as [Hil|Hil].
           ++ destruct (lookup_lt_is_Some_2 _ _ Hil) as [r0 Hr0].
              pose proof (Horig r0 Hr0) as Hut. apply Hio in Hr0.
              rewrite Hr, bool_decide_false in Hr0 by lia. simpl in Hr0. congruence.
           ++ destruct (Hin i r ltac:(lia) Hr) as [_ Ht0].
              rewrite bool_decide_false in Ht0 by lia. simpl in Ht0. congruence.
        -- left. split; [lia|]. by exists rk.
      * exfalso. rewrite Hnew in Hrk by lia.
        destruct Hextra as [[-> _]|(t & -> & _)]; [done|].
        apply lookup_lt_Some in Hrk. simpl in Hrk. lia.
  - (* successors *)
    assert (forall k, k ∈ (if fired then due ++ [i] else due)
                      <-> k ∈ due \/ (k = i /\ fired = true)) as Hmem.
    { intros k. destruct fired.
      - rewrite elem_of_app, list_elem_of_singleton. tauto.
      - split; [auto|]. by intros [?|[_ ?]]. }
    intros k rk [Hk|[-> Hf]]%Hmem Hrk Hrec.
    + pose proof (proj1 (Hid k) Hk) as [Hki _].
      rewrite Hold, decide_False in Hrk by lia.
      destruct (His k rk Hk Hrk Hrec)
        as (k' & r' & Hr' & Hk' & Hkk' & Hnext & Hmsg & Hpat).
      pose proof (lookup_lt_Some _ _ _ Hr') as Hk'lt.
      destruct (decide (k' = i)) as [->|Hne].
      * exists i, x. rewrite Hold, decide_True by done.
        assert (r' = r) as -> by congruence.
        rewrite Hxt, Hxm, Hxp. done.
      * exists k', r'. rewrite Hold, decide_False by done. done.
    + rewrite Hold, decide_True in Hrk by done. injection Hrk as <-.
      rewrite Hxrec in Hrec. rewrite Hxn, Hxm, Hxp.
      destruct Hextra as [[_ Hno]|(t & -> & _ & _ & Hnext)].
      { rewrite Hf, Hrec in Hno. done. }
      exists (length (reminders la)), (successor (clock i) r t).
      rewrite Hnew, Nat.sub_diag by lia. done.
  - (* sorted *)
    destruct fired; [|done]. apply StronglySorted_snoc; [done|].
    apply Forall_forall. intros k Hk. by apply Hid in Hk as [Hk _].
Qed.

Lemma sweep_inv_rtc clock now la0 i due la :
  rtc (iteration clock now) (0%nat, [], la0) (i, due, la) ->
  sweep_inv now la0 i due la.
Proof.
  intros Hrtc.
  apply (rtc_ind_r (fun st => sweep_inv now la0 st.1.1 st.1.2 st.2)
           (0%nat, [], la0)) in Hrtc; [done|apply sweep_inv_init|].
  intros [[i1 due1] la1] st2 _ Hstep IH. by eapply sweep_inv_step.
Qed.

(** The invariant at the end of a sweep that returns. *)
Lemma check_reminders_inv clock now la due la' :
  check_reminders clock now la = (Returned due, la') ->
  sweep_inv now la (length (reminders la')) due la'.
Proof.
  intros (j & Hrtc & Hj)%sweep_returned.
  pose proof (sweep_inv_rtc _ _ _ _ _ _ Hrtc) as Hinv.
  pose proof (inv_pos _ _ _ _ _ Hinv) as Hpos.
  by replace (length (reminders la')) with j by lia.
Qed.

(** ** After a sweep *)

(** Nothing is due at [now] in the store a returning sweep leaves. *)
Lemma check_reminders_none_due clock now la due la' :
  check_reminders clock now la = (Returned due, la') ->
  forall j r, reminders la' !! j = Some r -> is_due now r = false.
Proof.
  intros Hinv%check_reminders_inv j r Hr.
  pose proof (lookup_lt_Some _ _ _ Hr) as Hj.
  destruct (decide (j < length (reminders la))%nat) as [Hold|Hnew].
  - destruct (lookup_lt_is_Some_2 _ _ Hold) as [r0 Hr0].
    pose proof (inv_old _ _ _ _ _ Hinv j r0 Hr0) as Hr'.
    rewrite Hr, bool_decide_true in Hr' by done. simpl in Hr'. injection Hr' as ->.
    by destruct (is_due now r0) eqn:Hdue.
  - destruct (inv_new _ _ _ _ _ Hinv j r ltac:(lia) Hr) as [_ Htrig].
    rewrite bool_decide_true in Htrig by done. simpl in Htrig.
    unfold is_due. rewrite Htrig. by destruct (_ <=? _).
Qed.

(** A sweep over a store in which nothing is due fires nothing and changes
    nothing. *)
Lemma sweep_quiescent clock now la :
  (forall j r, reminders la !! j = Some r -> is_due now r = false) ->
  forall i due, sweep clock now i due la = (Returned due, la).
Proof.
  intros Hnone i due.
  remember (length (reminders la) - i)%nat as n eqn:Hn.
  revert i due Hn. induction n as [|n IH]; intros i due Hn; rewrite sweep_step.
  - rewrite decide_False by lia. done.
  - rewrite decide_True by lia.
    pose proof (visit_cases (clock i) now i la ltac:(lia)) as Hc.
    inversion Hc as [r Hr Hdue Heq|r Hr Hdue|r t Hr Hdue|r e Hr Hdue];
      try (rewrite (Hnone i r Hr) in Hdue; discriminate).
    apply IH. lia.
Qed.

(** ** Totality of the sweep away from the end of time *)

Lemma next_of_in_range now r :
  is_due now r = true -> datetime_min <= rem_trigger_time r ->
  now + timedelta_days 30 <= datetime_max ->
  exists t, next_of r = Returned t /\ datetime_min <= t.
Proof.
  intros [_ Hle]%is_due_spec Hmin Hmax.
  unfold next_of, _calculate_next_occurrence.
  unfold datetime_min, timedelta_weeks, timedelta_days, us_per_day, us_per_second in *.
  repeat case_match; (eexists; split; [apply datetime_add_in_range|]);
    unfold datetime_min, timedelta_weeks, timedelta_days, us_per_day, us_per_second in *;
    lia.
Qed.

Lemma sweep_returns clock now :
  now + timedelta_days 30 <= datetime_max ->
  forall i due la, triggers_valid la ->
  exists due' la', sweep clock now i due la = (Returned due', la').
Proof.
  intros Hmax i due la.
  remember (sweep_measure now i (reminders la)) as m eqn:Hm.
  revert i due la Hm. induction (lt_wf m) as [m _ IH]. intros i due la -> Hvalid.
  rewrite sweep_step.
  destruct (decide (i < length (reminders la))%nat) as [Hi|Hi]; [|eauto].
  pose proof (visit_cases (clock i) now i la Hi) as Hc.
  destruct (visit (clock i) now i la) as [[fired|e] la1] eqn:Hv.
  - eapply IH; [by eapply visit_measure|done|].
    unfold triggers_valid in *.
    inversion Hc as [r Hr Hdue|r Hr Hdue Hrec|r t Hr Hdue Hrec Hnext|]; subst; simpl.
    + done.
    + apply Forall_insert; [done|]. by eapply (Forall_lookup_1 _ _ _ _ Hvalid) in Hr.
    + pose proof (Forall_lookup_1 _ _ _ _ Hvalid Hr) as Hr0. simpl in Hr0.
      apply Forall_app. split; [by apply Forall_insert|].
      constructor; [|done]. simpl.
      destruct (next_of_in_range now r Hdue Hr0 Hmax) as (t' & Ht' & Hmin).
      congruence.
  - exfalso. inversion Hc as [| | |r e' Hr Hdue Hrec Hnext]; subst.
    pose proof (Forall_lookup_1 _ _ _ _ Hvalid Hr) as Hr0. simpl in Hr0.
    destruct (next_of_in_range now r Hdue Hr0 Hmax) as (t' & Ht' & _). congruence.
Qed.

(** [check_reminders] returns whenever [now] is at least thirty days
    before [datetime.max] and the stored trigger times are datetimes. *)
Lemma check_reminders_returns clock now la :
  now + timedelta_days 30 <= datetime_max -> triggers_valid la ->
  exists due la', check_reminders clock now la = (Returned due, la').
Proof. intros Hmax Hvalid. by apply sweep_returns. Qed.

(** ** Idempotence and catch-up *)

Lemma next_of_raises r e : next_of r = Raised e -> e = OverflowError.
Proof.
  unfold next_of, _calculate_next_occurrence, datetime_add.
  repeat case_match; congruence.
Qed.

Lemma sweep_raises_overflow clock now i due la e la' :
  sweep clock now i due la = (Raised e, la') -> e = OverflowError.
Proof.
  intros (j & due_j & la_j & _ & Hj & Hv)%sweep_raised.
  pose proof (visit_cases (clock j) now j la_j Hj) as Hc. rewrite Hv in Hc.
  inversion Hc as [| | |r e' Hr Hdue Hrec Hnext]; subst. by eapply next_of_raises.
Qed.

Lemma StronglySorted_lt_NoDup (l : list nat) : StronglySorted lt l -> NoDup l.
Proof.
  induction 1 as [|k l Hl IH Hk]; constructor; [|done].
  intros Hin. eapply Forall_forall in Hk; [|exact Hin]. lia.
Qed.

(** C3: for every store, every [now] and every reading of the clock, call
    [check_reminders] at [now] and then call it again at the same [now]:
    when the first call has returned, it has fired no reminder twice and
    the second call returns the empty list and leaves the store as it is,
    the successors that the first call created for recurring reminders
    long overdue included.  The first call can only fail to return by
    [OverflowError], a successor falling after [datetime.max], which needs
    [now] within thirty days of [datetime.max]; the sequence of calls then
    stops at the first. *)
Theorem check_reminders_twice clock clock' now la :
  match check_reminders clock now la with
  | (Returned due, la') =>
      NoDup due /\ check_reminders clock' now la' = (Returned [], la')
  | (Raised e, _) =>
      e = OverflowError
      /\ (triggers_valid la -> datetime_max < now + timedelta_days 30)
  end.
Proof.
  destruct (check_reminders clock now la) as [[due|e] la'] eqn:Hfirst.
  - split.
    + apply StronglySorted_lt_NoDup.
      apply (inv_sorted _ _ _ _ _ (check_reminders_inv _ _ _ _ _ Hfirst)).
    + apply sweep_quiescent. by eapply check_reminders_none_due.
  - split; [by eapply sweep_raises_overflow|]. intros Hvalid.
    apply Z.nle_gt. intros Hmax.
    destruct (check_reminders_returns clock now la Hmax Hvalid) as (due & la2 & Hret).
    congruence.
Qed.

Lemma check_reminders_twice_witness :
  NoDup [0; 1; 2; 3; 4; 5; 7]%nat
  /\ check_reminders steady_clock morning
       (check_reminders steady_clock morning backlog_store).2
     = (Returned [], (check_reminders steady_clock morning backlog_store).2).
Proof.
  assert (check_reminders steady_clock morning backlog_store
          = (Returned [0; 1; 2; 3; 4; 5; 7]%nat,
             (check_reminders steady_clock morning backlog_store).2)) as Hsweep
    by (vm_compute; reflexivity).
  pose proof (check_reminders_twice steady_clock steady_clock morning backlog_store)
    as Htwice.
  rewrite Hsweep in Htwice. exact Htwice.
Defined.

(** The scenario of the specification: a one-off reminder set an hour
    ahead fires in a sweep two hours later, alone and without successor. *)
Lemma call_mom_fires_once :
  let la := (add_reminder morning_secs "call mom" (morning + timedelta_hours 1)
               false None empty_assistant).2 in
  exists r,
    check_reminders steady_clock (morning + timedelta_hours 2) la
    = (Returned [0%nat], set_reminders [r] la)
    /\ rem_message r = "call mom"%string /\ rem_recurring r = false
    /\ rem_is_triggered r = true.
Proof. eexists. vm_compute. repeat split. Qed.

Lemma next_occurrence_period current pattern :
  _calculate_next_occurrence current pattern = datetime_add current (period pattern).
Proof. unfold _calculate_next_occurrence, period. by repeat case_match. Qed.

Lemma period_pos pattern : 0 < period pattern.
Proof.
  unfold period, timedelta_weeks, timedelta_days, us_per_day, us_per_second.
  repeat case_match; lia.
Qed.

Lemma next_of_returned r t :
  next_of r = Returned t -> t = rem_trigger_time r + period_of r.
Proof.
  unfold next_of, period_of. rewrite next_occurrence_period.
  by intros [-> _]%datetime_add_returned.
Qed.

(** The [n]-th occurrence of a recurring reminder of the start store has
    fired in the sweep if it falls at or before [now]. *)
Lemma check_reminders_catches_up clock now la due la' i r :
  check_reminders clock now la = (Returned due, la') ->
  reminders la !! i = Some r -> is_due now r = true -> recurs r = true ->
  forall n : nat,
    rem_trigger_time r + Z.of_nat n * period_of r <= now ->
    exists j r_n,
      j ∈ due /\ reminders la' !! j = Some r_n
      /\ rem_trigger_time r_n = rem_trigger_time r + Z.of_nat n * period_of r
      /\ rem_message r_n = rem_message r
      /\ rem_recurrence_pattern r_n = rem_recurrence_pattern r
      /\ rem_recurring r_n = true
      /\ rem_is_triggered r_n = true.
Proof.
  intros Hinv%check_reminders_inv Hr Hdue Hrec n.
  pose proof (period_pos (default ""%string (rem_recurrence_pattern r))) as Hpos.
  fold (period_of r) in Hpos.
  induction n as [|n IH]; intros Hn.
  - exists i, (mark_triggered r).
    pose proof (inv_old _ _ _ _ _ Hinv i r Hr) as Hi'.
    pose proof (lookup_lt_Some _ _ _ Hr) as Hlt.
    pose proof (inv_len _ _ _ _ _ Hinv) as Hlen.
    rewrite bool_decide_true, Hdue in Hi' by lia. simpl in Hi'.
    apply is_due_spec in Hdue as [Hut Htime].
    apply andb_true_iff in Hrec as [Hrecurring _].
    split; [|repeat split; try done; simpl; lia].
    apply (inv_due _ _ _ _ _ Hinv). split; [lia|].
    exists (mark_triggered r). repeat split; try done. congruence.
  - destruct IH as (j & r_n & Hj & Hrn & Htn & Hmn & Hpn & Hrecn & Htrign); [lia|].
    assert (recurs r_n = true) as Hrecurs.
    { unfold recurs in *. rewrite Hrecn, Hpn. by apply andb_true_iff in Hrec as [_ ->]. }
    destruct (inv_succ _ _ _ _ _ Hinv j r_n Hj Hrn Hrecurs)
      as (k' & r' & Hr' & Hk' & _ & Hnext & Hmsg & Hpat).
    apply next_of_returned in Hnext. unfold period_of in Hnext. rewrite Hpn in Hnext.
    fold (period_of r) in Hnext.
    destruct (inv_new _ _ _ _ _ Hinv k' r' Hk' Hr') as [Hrec' Htrig'].
    pose proof (lookup_lt_Some _ _ _ Hr') as Hk'lt.
    rewrite bool_decide_true in Htrig' by done. simpl in Htrig'.
    assert (rem_trigger_time r' <= now) as Htime' by lia.
    rewrite (proj2 (Z.leb_le _ _) Htime') in Htrig'.
    exists k', r'. split.
    { apply (inv_due _ _ _ _ _ Hinv). split; [done|]. exists r'.
      repeat split; try done. intros r0 Hr0. apply lookup_lt_Some in Hr0. lia. }
    repeat split; try done; try congruence. lia.
Qed.

(** C10: after [check_reminders] has returned at [now], every reminder in
    the store is triggered or has its trigger time after [now]; and for a
    recurring reminder that was due, every occurrence up to [now] (the
    trigger time plus a multiple of the offset of its pattern) has fired in
    that one sweep, the successors created by the sweep being visited by
    it. *)
Theorem check_reminders_leaves_nothing_due clock now la due la' :
  check_reminders clock now la = (Returned due, la') ->
  (forall j r, reminders la' !! j = Some r ->
     rem_is_triggered r = true \/ now < rem_trigger_time r)
  /\ (forall i r, reminders la !! i = Some r ->
        rem_is_triggered r = false -> rem_trigger_time r <= now ->
        rem_recurring r = true -> truthy (rem_recurrence_pattern r) = true ->
        forall n : nat,
          rem_trigger_time r + Z.of_nat n * period_of r <= now ->
          exists j r_n,
            j ∈ due /\ reminders la' !! j = Some r_n
            /\ rem_trigger_time r_n = rem_trigger_time r + Z.of_nat n * period_of r
            /\ rem_message r_n = rem_message r
            /\ rem_is_triggered r_n = true).
Proof.
  intros Hsweep. split.
  - intros j r Hr.
    pose proof (check_reminders_none_due _ _ _ _ _ Hsweep j r Hr) as Hnd.
    unfold is_due in Hnd. destruct (rem_is_triggered r); [by left|right].
    simpl in Hnd. by apply Z.leb_gt in Hnd.
  - intros i r Hr Hut Htime Hrec Hpat n Hn.
    destruct (check_reminders_catches_up clock now la due la' i r Hsweep Hr)
      with (n := n) as (j & r_n & H1 & H2 & H3 & H4 & _ & _ & H7); try done.
    + by apply is_due_spec.
    + unfold recurs. by rewrite Hrec, Hpat.
    + by exists j, r_n.
Qed.

Lemma check_reminders_leaves_nothing_due_witness :
  (forall j r,
     reminders (check_reminders steady_clock morning backlog_store).2 !! j = Some r ->
     rem_is_triggered r = true \/ morning < rem_trigger_time r)
  /\ exists j r_3,
       j ∈ [0; 1; 2; 3; 4; 5; 7]%nat
       /\ reminders (check_reminders steady_clock morning backlog_store).2 !! j
          = Some r_3
       /\ rem_trigger_time r_3 = rem_trigger_time gym + Z.of_nat 3 * period_of gym
       /\ rem_message r_3 = rem_message gym
       /\ rem_is_triggered r_3 = true.
Proof.
  assert (check_reminders steady_clock morning backlog_store
          = (Returned [0; 1; 2; 3; 4; 5; 7]%nat,
             (check_reminders steady_clock morning backlog_store).2)) as Hsweep
    by (vm_compute; reflexivity).
  destruct (check_reminders_leaves_nothing_due _ _ _ _ _ Hsweep) as [Hnone Hcatch].
  split; [exact Hnone|].
  apply (Hcatch 0%nat gym).
  - vm_compute. reflexivity.
  - reflexivity.
  - vm_compute. discriminate.
  - reflexivity.
  - reflexivity.
  - vm_compute. discriminate.
Defined.

(** ** Later states of the store *)

Lemma preserves_refl la : preserves la la.
Proof. intros k r Hr. by left. Qed.

Lemma preserves_trans la1 la2 la3 :
  preserves la1 la2 -> preserves la2 la3 -> preserves la1 la3.
Proof.
  intros H12 H23 k r Hr. destruct (H12 k r Hr) as [H2|[Hut H2]].
  - apply (H23 k r H2).
  - destruct (H23 k _ H2) as [H3|[Hut' _]]; [by right|done].
Qed.

Lemma triggered_stays la la' k r :
  preserves la la' -> reminders la !! k = Some r -> rem_is_triggered r = true ->
  reminders la' !! k = Some r.
Proof. intros Hp Hr Ht. destruct (Hp k r Hr) as [H|[Hut _]]; [done|congruence]. Qed.

Lemma iteration_preserves clock now st st' :
  iteration clock now st st' -> preserves st.2 st'.2.
Proof.
  intros Hit. inversion Hit as [i due la fired la' Hi Hv]; subst. simpl.
  destruct (visit_effect _ _ _ _ _ _ Hi Hv)
    as (r & extra & Hr & Hfired & _ & _ & Hrems & _).
  intros k rk Hrk. pose proof (lookup_lt_Some _ _ _ Hrk) as Hk.
  rewrite Hrems, visit_lookup_old by done.
  destruct (decide (k = i)) as [->|Hne]; [|by left].
  assert (rk = r) as -> by congruence. destruct fired; [|by left].
  right. symmetry in Hfired. by apply is_due_spec in Hfired as [Hut _].
Qed.

Lemma iterations_preserve clock now st st' :
  rtc (iteration clock now) st st' -> preserves st.2 st'.2.
Proof.
  induction 1 as [|st1 st2 st3 Hstep _ IH]; [apply preserves_refl|].
  eapply preserves_trans; [|exact IH]. by eapply iteration_preserves.
Qed.

Lemma sweep_preserves clock now i due la :
  preserves la (sweep clock now i due la).2.
Proof.
  destruct (sweep clock now i due la) as [[due'|e] la'] eqn:Hs; simpl.
  - apply sweep_returned in Hs as (j & Hrtc & _).
    apply (iterations_preserve _ _ _ _ Hrtc).
  - apply sweep_raised in Hs as (j & due_j & la_j & Hrtc & Hj & Hv).
    eapply preserves_trans; [apply (iterations_preserve _ _ _ _ Hrtc)|]. simpl.
    pose proof (visit_cases (clock j) now j la_j Hj) as Hc. rewrite Hv in Hc.
    inversion Hc as [| | |r e' Hr Hdue Hrec Hnext]; subst.
    intros k rk Hrk. simpl. destruct (decide (k = j)) as [->|Hne].
    + rewrite list_lookup_insert_eq by done. assert (rk = r) as -> by congruence.
      right. by apply is_due_spec in Hdue as [Hut _].
    + rewrite list_lookup_insert_ne by done. by left.
Qed.

Lemma la_step_preserves la la' : la_step la la' -> preserves la la'.
Proof.
  destruct 1 as [| |secs message trigger_time recurring pattern la|clock now la].
  - intros k r Hr. by left.
  - unfold complete_task. destruct (complete_first _ _). intros k r Hr. by left.
  - intros k r Hr. left. simpl. by apply lookup_app_l_Some.
  - apply sweep_preserves.
Qed.

Lemma later_preserves la la' : rtc la_step la la' -> preserves la la'.
Proof.
  induction 1 as [|la1 la2 la3 Hstep _ IH]; [apply preserves_refl|].
  eapply preserves_trans; [|exact IH]. by apply la_step_preserves.
Qed.

(** A sweep fires only reminders that were not triggered before it. *)
Lemma fired_was_untriggered clock now la due la' k r :
  check_reminders clock now la = (Returned due, la') -> k ∈ due ->
  reminders la !! k = Some r -> is_due now r = true.
Proof.
  intros Hinv%check_reminders_inv Hk Hr.
  apply (inv_due _ _ _ _ _ Hinv) in Hk as (Hlt & r' & Hr' & Htrig & Htime & Horig).
  pose proof (inv_old _ _ _ _ _ Hinv k r Hr) as Hold.
  apply is_due_spec. split; [by apply Horig|].
  rewrite Hr' in Hold. injection Hold as ->. by destruct (_ && _).
Qed.

(** The iteration that finds a due recurring reminder marks it and appends
    its successor, and nothing else. *)
Lemma visit_fires_recurring secs now i la r t :
  reminders la !! i = Some r -> is_due now r = true -> recurs r = true ->
  next_of r = Returned t ->
  visit secs now i la
  = (Returned true,
     set_reminders (<[i := mark_triggered r]> (reminders la) ++ [successor secs r t]) la).
Proof.
  intros Hr Hdue Hrec Hnext. unfold visit, bind, get, modify, lift. simpl.
  rewrite Hr, Hdue, Hrec. fold (next_of r). rewrite Hnext. reflexivity.
Qed.

(** A run of turns from position [i0] to position [j] passes through every
    position in between. *)
Lemma iterations_through clock now st st' i :
  rtc (iteration clock now) st st' ->
  (st.1.1 <= i < st'.1.1)%nat ->
  exists due_i la_i, rtc (iteration clock now) st (i, due_i, la_i)
                     /\ rtc (iteration clock now) (i, due_i, la_i) st'.
Proof.
  induction 1 as [st|st1 st2 st3 Hstep Hrtc IH]; intros Hi; [lia|].
  destruct (decide (st1.1.1 = i)) as [Heq|Hne].
  - destruct st1 as [[i1 due1] la1]. simpl in Heq. subst i1.
    exists due1, la1. split; [done|]. by eapply rtc_l.
  - destruct IH as (due_i & la_i & H1 & H2).
    { inversion Hstep; subst; simpl in *. lia. }
    exists due_i, la_i. split; [|done]. by eapply rtc_l.
Qed.

(** C4: let a sweep that returns have fired the reminder at position [i]
    (one that was in the store before the sweep, or a successor the sweep
    itself appended), a recurring reminder with the weekly pattern and
    trigger time [T]; [r'] is that reminder as the sweep leaves it.  Then
    it was untriggered and due; the sweep reached position [i] with the
    reminder still untriggered, and its turn there marked it and appended
    exactly one reminder: untriggered, recurring, weekly, with the same
    message and trigger time [T + 7 days], whatever [now] is; after the
    sweep the original is triggered and the successor is in the store; and
    in every later state of the store the original is still triggered and
    no sweep fires it again. *)
Theorem weekly_reminder_fires_once clock now la due la' i r' :
  check_reminders clock now la = (Returned due, la') ->
  i ∈ due ->
  reminders la' !! i = Some r' ->
  rem_recurring r' = true ->
  rem_recurrence_pattern r' = Some "weekly"%string ->
  let next := rem_trigger_time r' + timedelta_days 7 in
  let successor_at secs :=
    {| rem_id := "rem_" +:+ str_of_int secs;
       rem_message := rem_message r';
       rem_trigger_time := next;
       rem_recurring := true;
       rem_recurrence_pattern := Some "weekly"%string;
       rem_is_triggered := false |} in
  (rem_is_triggered r' = true /\ rem_trigger_time r' <= now
   /\ forall r0, reminders la !! i = Some r0 ->
        rem_is_triggered r0 = false /\ r' = mark_triggered r0)
  /\ (exists due_i la_i r,
        rtc (iteration clock now) (0%nat, [], la) (i, due_i, la_i)
        /\ reminders la_i !! i = Some r
        /\ rem_is_triggered r = false /\ r' = mark_triggered r
        /\ visit (clock i) now i la_i
           = (Returned true,
              set_reminders (<[i := r']> (reminders la_i)
                             ++ [successor_at (clock i)]) la_i)
        /\ rtc (iteration clock now)
             (S i, due_i ++ [i],
              set_reminders (<[i := r']> (reminders la_i)
                             ++ [successor_at (clock i)]) la_i)
             (length (reminders la'), due, la'))
  /\ (exists j s,
        (length (reminders la) <= j)%nat /\ (i < j)%nat
        /\ reminders la' !! j = Some s
        /\ rem_trigger_time s = next /\ rem_message s = rem_message r'
        /\ rem_recurring s = true
        /\ rem_recurrence_pattern s = Some "weekly"%string
        /\ rem_is_triggered s = (next <=? now))
  /\ (forall later, rtc la_step la' later ->
        reminders later !! i = Some r'
        /\ forall clock2 now2 due2 la2,
             check_reminders clock2 now2 later = (Returned due2, la2) -> i ∉ due2).
Proof.
  intros Hsweep Hi Hi' Hrecurring Hpat. cbv zeta.
  pose proof (check_reminders_inv _ _ _ _ _ Hsweep) as Hinv.
  assert (recurs r' = true) as Hrec by (unfold recurs; by rewrite Hrecurring, Hpat).
  destruct (proj1 (inv_due _ _ _ _ _ Hinv i) Hi)
    as (Hilt & r'' & Hr'' & Htrig & Htime & Horig).
  assert (r'' = r') as -> by congruence.
  destruct (inv_succ _ _ _ _ _ Hinv i _ Hi Hi' Hrec)
    as (j & s & Hs & Hj & Hij & Hnext & Hmsg & Hspat).
  pose proof (next_of_returned _ _ Hnext) as Hst.
  unfold period_of in Hst. rewrite Hpat in Hst, Hspat.
  change (period (default ""%string (Some "weekly"%string)))
    with (timedelta_days 7) in Hst.
  split; [|split; [|split]].
  - split; [done|]. split; [done|]. intros r0 Hr0. split; [by apply Horig|].
    pose proof (inv_old _ _ _ _ _ Hinv i r0 Hr0) as Hold.
    rewrite Hi' in Hold. injection Hold as ->.
    destruct (_ && _) eqn:Hb; [done|]. pose proof (Horig r0 Hr0). congruence.
  - apply sweep_returned in Hsweep as (n & Hrtc & Hn).
    pose proof (inv_pos _ _ _ _ _ (sweep_inv_rtc _ _ _ _ _ _ Hrtc)) as Hpos.
    assert (n = length (reminders la')) as -> by lia.
    destruct (iterations_through _ _ _ _ i Hrtc) as (due_i & la_i & H1 & H2);
      [simpl; lia|].
    pose proof (sweep_inv_rtc _ _ _ _ _ _ H1) as Hinv_i.
    inversion H2 as [|st1 st2 st3 Hstep Hrest]; subst; [lia|].
    inversion Hstep as [i1 due1 la1 fired la2 Hlt Hv]; subst.
    destruct (lookup_lt_is_Some_2 _ _ Hlt) as [r Hr].
    assert (rem_is_triggered r = false) as Hut.
    { destruct (decide (i < length (reminders la))%nat) as [Hold|Hnew].
      - destruct (lookup_lt_is_Some_2 _ _ Hold) as [r0 Hr0].
        pose proof (inv_old _ _ _ _ _ Hinv_i i r0 Hr0) as Hri.
        rewrite bool_decide_false in Hri by lia. simpl in Hri.
        assert (r = r0) as -> by congruence. by apply Horig.
      - destruct (inv_new _ _ _ _ _ Hinv_i i r ltac:(lia) Hr) as [_ Hri].
        by rewrite bool_decide_false in Hri by lia. }
    assert (r' = mark_triggered r) as Hmark.
    { pose proof (iterations_preserve _ _ _ _ H2) as Hp. simpl in Hp.
      destruct (Hp i r Hr) as [Hsame|[_ Hm]]; congruence. }
    assert (is_due now r = true) as Hdue.
    { apply is_due_spec. split; [done|]. by rewrite Hmark in Htime. }
    assert (visit (clock i) now i la_i
            = (Returned true,
               set_reminders (<[i := r']> (reminders la_i)
                 ++ [{| rem_id := "rem_" +:+ str_of_int (clock i);
                        rem_message := rem_message r';
                        rem_trigger_time := rem_trigger_time r' + timedelta_days 7;
                        rem_recurring := true;
                        rem_recurrence_pattern := Some "weekly"%string;
                        rem_is_triggered := false |}]) la_i)) as Hv'.
    { rewrite (visit_fires_recurring (clock i) now i la_i r (rem_trigger_time s));
        [|done|done|by rewrite Hmark in Hrec|by rewrite Hmark in Hnext].
      unfold successor. rewrite Hst, Hmark. simpl.
      rewrite Hmark in Hpat. simpl in Hpat. by rewrite Hpat. }
    exists due_i, la_i, r. repeat (split; [done|]).
    rewrite Hv' in Hv. injection Hv as <- <-. exact Hrest.
  - exists j, s. destruct (inv_new _ _ _ _ _ Hinv j s Hj Hs) as [Hsrec Hstrig].
    rewrite bool_decide_true in Hstrig by (by eapply lookup_lt_Some).
    simpl in Hstrig. rewrite Hst in Hstrig. done.
  - intros later Hlater. pose proof (later_preserves _ _ Hlater) as Hp.
    pose proof (triggered_stays _ _ _ _ Hp Hi' Htrig) as Hi''.
    split; [done|]. intros clock2 now2 due2 la2 Hsweep2 Hin.
    pose proof (fired_was_untriggered _ _ _ _ _ _ _ Hsweep2 Hin Hi'') as Hd.
    apply is_due_spec in Hd as [Hd _]. congruence.
Qed.

Lemma weekly_reminder_fires_once_witness :
  (exists j s,
     (length (reminders backlog_store) <= j)%nat /\ (2 < j)%nat
     /\ reminders (check_reminders steady_clock morning backlog_store).2 !! j = Some s
     /\ rem_trigger_time s = rem_trigger_time weekly_review + timedelta_days 7
     /\ rem_message s = rem_message weekly_review
     /\ rem_recurring s = true
     /\ rem_recurrence_pattern s = Some "weekly"%string
     /\ rem_is_triggered s
        = (rem_trigger_time weekly_review + timedelta_days 7 <=? morning))
  /\ (exists j s,
        (length (reminders backlog_store) <= j)%nat /\ (4 < j)%nat
        /\ reminders (check_reminders steady_clock morning backlog_store).2 !! j
           = Some s
        /\ rem_trigger_time s = rem_trigger_time weekly_review_next + timedelta_days 7
        /\ rem_message s = rem_message weekly_review_next
        /\ rem_recurring s = true
        /\ rem_recurrence_pattern s = Some "weekly"%string
        /\ rem_is_triggered s
           = (rem_trigger_time weekly_review_next + timedelta_days 7 <=? morning)).
Proof.
  assert (check_reminders steady_clock morning backlog_store
          = (Returned [0; 1; 2; 3; 4; 5; 7]%nat,
             (check_reminders steady_clock morning backlog_store).2)) as Hsweep
    by (vm_compute; reflexivity).
  assert (2%nat ∈ [0; 1; 2; 3; 4; 5; 7]%nat) as Hin2
    by (apply list_elem_of_In; simpl; tauto).
  assert (4%nat ∈ [0; 1; 2; 3; 4; 5; 7]%nat) as Hin4
    by (apply list_elem_of_In; simpl; tauto).
  assert (reminders (check_reminders steady_clock morning backlog_store).2 !! 2%nat
          = Some weekly_review) as Hr2 by (vm_compute; reflexivity).
  assert (reminders (check_reminders steady_clock morning backlog_store).2 !! 4%nat
          = Some weekly_review_next) as Hr4 by (vm_compute; reflexivity).
  split.
  - exact (proj1 (proj2 (proj2
      (weekly_reminder_fires_once _ _ _ _ _ _ _ Hsweep Hin2 Hr2 eq_refl eq_refl)))).
  - exact (proj1 (proj2 (proj2
      (weekly_reminder_fires_once _ _ _ _ _ _ _ Hsweep Hin4 Hr4 eq_refl eq_refl)))).
Defined.

(** ** Identifiers *)

Lemma str_of_int_inj a b : str_of_int a = str_of_int b -> a = b.
Proof.
  unfold str_of_int. intros H.
  assert (forall z, NilZero.int_of_string (NilZero.string_of_int (Z.to_int z))
                    = Some (Z.to_int z)) as Hisi.
  { intros z. apply NilZero.isi; destruct z; simpl; try discriminate;
      intros [= Hp]; by apply Unsigned.to_uint_nonnil in Hp. }
  apply (f_equal NilZero.int_of_string) in H. rewrite !Hisi in H.
  injection H as H. by apply DecimalZ.to_int_inj.
Qed.

Lemma append_inj_l (p s1 s2 : string) : p +:+ s1 = p +:+ s2 -> s1 = s2.
Proof. induction p as [|c p IH]; simpl; [done|]. intros [= H]. auto. Qed.

(** Tasks created in different seconds do get different identifiers. *)
Lemma add_task_ids_differ secs1 secs2 now1 now2 t1 t2 d1 d2 due1 due2 p1 p2 g1 g2 la :
  secs1 <> secs2 ->
  match add_task secs1 now1 t1 d1 due1 p1 g1 la with
  | (Returned task1, la1) =>
      match add_task secs2 now2 t2 d2 due2 p2 g2 la1 with
      | (Returned task2, _) => task_id task1 <> task_id task2
      | _ => False
      end
  | _ => False
  end.
Proof.
  intros Hne. cbn. intros H%append_inj_l%str_of_int_inj. done.
Qed.

(** No operation rewrites a stored identifier: in every later state a
    task, and a reminder, is found at its position with the identifier it
    was given. *)
Lemma complete_first_lookup task_id0 ts k t :
  ts !! k = Some t ->
  exists t', (complete_first task_id0 ts).2 !! k = Some t' /\ task_id t' = task_id t.
Proof.
  revert k. induction ts as [|t0 ts IH]; intros k Hk; [done|]. simpl.
  destruct (String.eqb (task_id t0) task_id0).
  - destruct k as [|k]; simpl in *; [|by eauto].
    injection Hk as <-. by eexists.
  - destruct (complete_first task_id0 ts) as [found ts'] eqn:Hc. simpl in *.
    destruct k as [|k]; simpl in *; [by eauto|]. by apply IH.
Qed.

Lemma iterations_tasks clock now st st' :
  rtc (iteration clock now) st st' -> tasks st'.2 = tasks st.2.
Proof.
  induction 1 as [|st1 st2 st3 Hstep _ IH]; [done|]. rewrite IH.
  inversion Hstep as [i due la fired la' Hi Hv]; subst. simpl.
  by destruct (visit_effect _ _ _ _ _ _ Hi Hv) as (_ & _ & _ & _ & -> & _).
Qed.

Lemma sweep_tasks clock now i due la :
  tasks (sweep clock now i due la).2 = tasks la.
Proof.
  destruct (sweep clock now i due la) as [[due'|e] la'] eqn:Hs; simpl.
  - apply sweep_returned in Hs as (j & Hrtc & _).
    apply (iterations_tasks _ _ _ _ Hrtc).
  - apply sweep_raised in Hs as (j & due_j & la_j & Hrtc & Hj & Hv).
    pose proof (iterations_tasks _ _ _ _ Hrtc) as Ht. simpl in Ht. rewrite <- Ht.
    pose proof (visit_cases (clock j) now j la_j Hj) as Hc. rewrite Hv in Hc.
    by inversion Hc.
Qed.

Lemma identifiers_never_change la la' :
  rtc la_step la la' ->
  (forall k t, tasks la !! k = Some t ->
     exists t', tasks la' !! k = Some t' /\ task_id t' = task_id t)
  /\ (forall k r, reminders la !! k = Some r ->
        exists r', reminders la' !! k = Some r' /\ rem_id r' = rem_id r).
Proof.
  intros Hlater. split.
  - induction Hlater as [|la1 la2 la3 Hstep _ IH]; [by eauto|].
    intros k t Ht.
    assert (exists t2, tasks la2 !! k = Some t2 /\ task_id t2 = task_id t)
      as (t2 & Ht2 & Hid).
    { destruct Hstep as [| | |clock now la1]; simpl.
      - exists t. split; [by apply lookup_app_l_Some|done].
      - unfold complete_task.
        destruct (complete_first_lookup task_id0 (tasks la) k t Ht) as (t' & H1 & H2).
        destruct (complete_first task_id0 (tasks la)). simpl in *. by eauto.
      - by eauto.
      - unfold check_reminders. rewrite sweep_tasks. by eauto. }
    destruct (IH k t2 Ht2) as (t' & Ht' & Hid'). exists t'. split; [done|congruence].
  - intros k r Hr. destruct (later_preserves _ _ Hlater k r Hr) as [H|[_ H]]; by eauto.
Qed.

(** C1 (fails on the code): two tasks, and two reminders, created within
    one clock second receive the same identifier, since the identifier is
    only the prefix and the integer second of creation. *)
Theorem ids_collide_within_a_second :
  let la1 := (add_task morning_secs morning "buy milk" "" None "medium" None
                empty_assistant).2 in
  let la2 := (add_task morning_secs (morning + 400000) "call mom" "" None "high" None
                la1).2 in
  let la3 := (add_reminder morning_secs "stand up" (morning + 1) false None la2).2 in
  let la4 := (add_reminder morning_secs "sit down" (morning + 2) false None la3).2 in
  task_id <$> tasks la4 = ["task_1767258000"; "task_1767258000"]%string
  /\ task_title <$> tasks la4 = ["buy milk"; "call mom"]%string
  /\ rem_id <$> reminders la4 = ["rem_1767258000"; "rem_1767258000"]%string
  /\ rem_message <$> reminders la4 = ["stand up"; "sit down"]%string.
Proof. vm_compute. done. Qed.

(** * Further properties of the code *)

(** ** Completing tasks *)

(** What the loop of [complete_task] does: either no task carries the
    identifier, or the first one that does is completed. *)
Lemma complete_first_spec task_id0 ts :
  (Forall (fun t => task_id t <> task_id0) ts
   /\ complete_first task_id0 ts = (false, ts))
  \/ (exists i t,
        ts !! i = Some t /\ task_id t = task_id0
        /\ (forall m tm, (m < i)%nat -> ts !! m = Some tm -> task_id tm <> task_id0)
        /\ complete_first task_id0 ts = (true, <[i := complete_status t]> ts)).
Proof.
  induction ts as [|t ts IH]; simpl.
  - left. by split.
  - destruct (String.eqb_spec (task_id t) task_id0) as [Heq|Hne].
    + right. exists 0%nat, t. repeat split; try done. intros m tm Hm. lia.
    + destruct IH as [[Hall Hcf]|(i & ti & Hi & Hid & Hfirst & Hcf)]; rewrite Hcf.
      * left. split; [by constructor|done].
      * right. exists (S i), ti. repeat split; try done.
        intros [|m] tm Hm Htm; simpl in Htm; [congruence|].
        apply (Hfirst m tm); [lia|done].
Qed.

Lemma set_tasks_same la : set_tasks (tasks la) la = la.
Proof. by destruct la. Qed.

Lemma complete_status_idemp t : complete_status (complete_status t) = complete_status t.
Proof. done. Qed.

(** X1: [complete_task] returns [True] exactly when some task carries the
    identifier; when none does it returns [False] and leaves the
    assistant as it is. *)
Theorem complete_task_found_iff task_id0 la :
  exists found,
    (complete_task task_id0 la).1 = Returned found
    /\ (found = true <-> exists t, t ∈ tasks la /\ task_id t = task_id0)
    /\ (found = false -> (complete_task task_id0 la).2 = la).
Proof.
  unfold complete_task.
  destruct (complete_first_spec task_id0 (tasks la))
    as [[Hall Hcf]|(i & t & Hi & Hid & _ & Hcf)]; rewrite Hcf; simpl.
  - exists false. split; [done|]. split; [|intros _; apply set_tasks_same].
    split; [done|]. intros (t & Ht & Hid).
    rewrite Forall_forall in Hall. by destruct (Hall t Ht).
  - exists true. split; [done|]. split; [|done].
    split; [|done]. intros _. exists t. split; [|done]. by eapply list_elem_of_lookup_2.
Qed.

(** The run of [complete_task] when the first match is known. *)
Lemma complete_task_first_match_aux task_id0 la i t :
  tasks la !! i = Some t -> task_id t = task_id0 ->
  (forall m tm, (m < i)%nat -> tasks la !! m = Some tm -> task_id tm <> task_id0) ->
  complete_task task_id0 la
  = (Returned true, set_tasks (<[i := complete_status t]> (tasks la)) la).
Proof.
  intros Hi Hid Hfirst. unfold complete_task.
  destruct (complete_first_spec task_id0 (tasks la))
    as [[Hall Hcf]|(j & tj & Hj & Hidj & Hfirstj & Hcf)]; rewrite Hcf; simpl.
  - rewrite Forall_forall in Hall.
    destruct (Hall t (list_elem_of_lookup_2 _ _ _ Hi) Hid).
  - assert (j = i) as ->.
    { destruct (Nat.lt_trichotomy j i) as [Hlt|[Heq|Hgt]]; [|done|].
      - destruct (Hfirst j tj Hlt Hj Hidj).
      - destruct (Hfirstj i t Hgt Hi Hid). }
    by assert (tj = t) as -> by congruence.
Qed.

(** X2: when the first task carrying the identifier stands at position
    [i], [complete_task] returns [True], sets the status of that task to
    completed and changes nothing else: not its other fields, not the other
    tasks (later ones with the same identifier included), not the
    reminders. *)
Theorem complete_task_first_match task_id0 la i t :
  tasks la !! i = Some t -> task_id t = task_id0 ->
  (forall m tm, (m < i)%nat -> tasks la !! m = Some tm -> task_id tm <> task_id0) ->
  complete_task task_id0 la
  = (Returned true, set_tasks (<[i := complete_status t]> (tasks la)) la)
  /\ task_status (complete_status t) = "completed"%string
  /\ (task_id (complete_status t), task_title (complete_status t),
      task_description (complete_status t), task_due_date (complete_status t),
      task_priority (complete_status t), task_created_at (complete_status t),
      task_tags (complete_status t))
     = (task_id t, task_title t, task_description t, task_due_date t,
        task_priority t, task_created_at t, task_tags t)
  /\ (forall k, k <> i ->
        tasks (complete_task task_id0 la).2 !! k = tasks la !! k)
  /\ reminders (complete_task task_id0 la).2 = reminders la.
Proof.
  intros Hi Hid Hfirst.
  rewrite (complete_task_first_match_aux task_id0 la i t Hi Hid Hfirst). simpl.
  repeat split; try done. intros k Hk. by apply list_lookup_insert_ne.
Qed.

Lemma complete_task_first_match_witness :
  complete_task "task_1767258000" chores
  = (Returned true, set_tasks (<[0%nat := complete_status buy_milk]> (tasks chores)) chores)
  /\ tasks (complete_task "task_1767258000" chores).2 !! 1%nat = Some water_plants.
Proof.
  assert (tasks chores !! 0%nat = Some buy_milk) as H0 by (vm_compute; reflexivity).
  destruct (complete_task_first_match "task_1767258000" chores 0 buy_milk H0 eq_refl)
    as (Hrun & _ & _ & Hothers & _); [intros m tm Hm; lia|].
  split; [exact Hrun|]. rewrite (Hothers 1%nat) by lia. vm_compute. reflexivity.
Defined.

(** X3: [complete_task] is idempotent: a second call with the same
    identifier returns the same answer and changes nothing. *)
Theorem complete_task_idempotent task_id0 la :
  complete_task task_id0 (complete_task task_id0 la).2 = complete_task task_id0 la.
Proof.
  unfold complete_task at 2 3.
  destruct (complete_first_spec task_id0 (tasks la))
    as [[Hall Hcf]|(i & t & Hi & Hid & Hfirst & Hcf)]; rewrite Hcf; simpl.
  - rewrite set_tasks_same. unfold complete_task. rewrite Hcf. simpl.
    by rewrite set_tasks_same.
  - pose proof (lookup_lt_Some _ _ _ Hi) as Hlt.
    rewrite (complete_task_first_match_aux task_id0
               (set_tasks (<[i := complete_status t]> (tasks la)) la)
               i (complete_status t)); simpl.
    + by rewrite list_insert_insert_eq.
    + by apply list_lookup_insert_eq.
    + done.
    + intros m tm Hm. rewrite list_lookup_insert_ne by lia. by apply Hfirst.
Qed.

(** What one operation does to the task at a position: nothing, or it
    completes it, and then no earlier task carries its identifier. *)
Lemma la_step_task la la2 k t :
  la_step la la2 -> tasks la !! k = Some t ->
  tasks la2 !! k = Some t
  \/ (tasks la2 !! k = Some (complete_status t)
      /\ forall m tm, (m < k)%nat -> tasks la !! m = Some tm -> task_id tm <> task_id t).
Proof.
  intros Hstep Hk. destruct Hstep as [| | |clock now la]; simpl.
  - left. by apply lookup_app_l_Some.
  - unfold complete_task.
    destruct (complete_first_spec task_id0 (tasks la))
      as [[Hall Hcf]|(i & ti & Hi & Hid & Hfirst & Hcf)]; rewrite Hcf; simpl.
    + by left.
    + destruct (decide (k = i)) as [->|Hne].
      * assert (ti = t) as -> by congruence. right.
        split; [apply list_lookup_insert_eq; by eapply lookup_lt_Some|].
        intros m tm Hm Htm. rewrite Hid. by eapply Hfirst.
      * left. by rewrite list_lookup_insert_ne.
  - by left.
  - left. unfold check_reminders. by rewrite sweep_tasks.
Qed.

(** X4: a task that carries the identifier of an earlier task can never be
    completed: whatever operations follow, it stays in the store exactly as
    it is, status included. *)
Theorem shadowed_task_never_completed la la' i j ti tj :
  tasks la !! i = Some ti -> tasks la !! j = Some tj ->
  (i < j)%nat -> task_id ti = task_id tj ->
  rtc la_step la la' ->
  tasks la' !! j = Some tj.
Proof.
  intros Hi Hj Hij Hid Hlater. revert ti Hi Hid Hj.
  induction Hlater as [|la1 la2 la3 Hstep _ IH]; intros ti Hi Hid Hj; [done|].
  destruct (la_step_task _ _ _ _ Hstep Hj) as [Hj2|[_ Hfirst]].
  - destruct (la_step_task _ _ _ _ Hstep Hi) as [Hi2|[Hi2 _]].
    + by apply (IH ti).
    + by apply (IH (complete_status ti)).
  - destruct (Hfirst i ti Hij Hi Hid).
Qed.

Lemma shadowed_task_never_completed_witness :
  tasks (complete_task "task_1767258000"
           (complete_task "task_1767258000" chores).2).2 !! 1%nat
  = Some water_plants.
Proof.
  apply (shadowed_task_never_completed chores _ 0 1 buy_milk water_plants).
  - vm_compute. reflexivity.
  - vm_compute. reflexivity.
  - lia.
  - reflexivity.
  - eapply rtc_l; [apply step_complete_task|].
    eapply rtc_l; [apply step_complete_task|]. apply rtc_refl.
Defined.

(** ** Tasks added and completed, as [get_pending_tasks] sees them *)

Lemma selected_add_task secs now title description due_date priority tags la :
  selected None (add_task secs now title description due_date priority tags la).2
  = selected None la
    ++ [{| task_id := "task_" +:+ str_of_int secs; task_title := title;
           task_description := description; task_due_date := due_date;
           task_priority := priority; task_status := "pending";
           task_created_at := now; task_tags := default [] tags |}].
Proof. unfold selected. simpl. by rewrite filter_app. Qed.

(** X5: a task just added is pending: [get_pending_tasks] then returns it,
    without a filter and under the filter of its own priority, together
    with every task that was pending before, and the unfiltered list is one
    longer. *)
Theorem added_task_is_pending secs now title description due_date priority tags la :
  exists task,
    let la' := (add_task secs now title description due_date priority tags la).2 in
    (add_task secs now title description due_date priority tags la).1 = Returned task
    /\ task ∈ get_pending_tasks None la'
    /\ (priority <> ""%string -> task ∈ get_pending_tasks (Some priority) la')
    /\ (forall t, t ∈ get_pending_tasks None la -> t ∈ get_pending_tasks None la')
    /\ length (get_pending_tasks None la') = S (length (get_pending_tasks None la)).
Proof.
  eexists. cbv zeta. split; [reflexivity|].
  rewrite !get_pending_tasks_sorted.
  split; [|split; [|split]].
  - rewrite sorted_perm, selected_add_task, elem_of_app, list_elem_of_singleton. by right.
  - intros Hp. rewrite sorted_perm. unfold selected. simpl.
    rewrite (string_eqb_ne _ _ Hp). simpl.
    apply list_elem_of_filter. split; [done|].
    rewrite filter_app, elem_of_app. right. simpl.
    rewrite filter_cons_True by done. by apply list_elem_of_singleton.
  - intros t. rewrite !sorted_perm, selected_add_task, elem_of_app. by left.
  - rewrite !sorted_perm, selected_add_task, length_app. simpl. lia.
Qed.

(** X6: completing a task that was not completed removes exactly that task
    from the pending list; and completing never makes a task pending. *)
Theorem completed_task_leaves_pending task_id0 la i t :
  tasks la !! i = Some t -> task_id t = task_id0 ->
  (forall m tm, (m < i)%nat -> tasks la !! m = Some tm -> task_id tm <> task_id0) ->
  task_status t <> "completed"%string ->
  get_pending_tasks None la ≡ₚ t :: get_pending_tasks None (complete_task task_id0 la).2
  /\ forall priority_filter x,
       x ∈ get_pending_tasks priority_filter (complete_task task_id0 la).2 ->
       x ∈ get_pending_tasks priority_filter la.
Proof.
  intros Hi Hid Hfirst Hstatus.
  pose proof (complete_task_first_match_aux task_id0 la i t Hi Hid Hfirst) as Hrun.
  rewrite Hrun. cbn [snd]. rewrite !get_pending_tasks_sorted.
  pose proof (lookup_lt_Some _ _ _ Hi) as Hlt.
  assert (tasks la = take i (tasks la) ++ t :: drop (S i) (tasks la)) as Hsplit.
  { by rewrite <- (take_drop_middle _ _ _ Hi) at 1. }
  assert (<[i := complete_status t]> (tasks la)
          = take i (tasks la) ++ complete_status t :: drop (S i) (tasks la)) as Hins.
  { by apply insert_take_drop. }
  set (l1 := take i (tasks la)) in *. set (l2 := drop (S i) (tasks la)) in *.
  clearbody l1 l2.
  split.
  - rewrite !sorted_perm. unfold selected. simpl. rewrite Hins, Hsplit.
    rewrite !filter_app, !filter_cons. simpl.
    repeat case_decide; try done. by rewrite Permutation_middle.
  - intros pf x. rewrite !get_pending_tasks_sorted, !sorted_perm.
    unfold selected. simpl.
    assert (forall y, y ∈ filter (fun t0 => task_status t0 ≠ "completed"%string)
                            (<[i := complete_status t]> (tasks la)) ->
                      y ∈ filter (fun t0 => task_status t0 ≠ "completed"%string)
                            (tasks la)) as Hsub.
    { intros y. rewrite Hins, Hsplit.
      rewrite !filter_app, !filter_cons. simpl.
      repeat case_decide; try done. rewrite !elem_of_app, elem_of_cons. tauto. }
    destruct (truthy pf); [|apply Hsub].
    intros [Hp Hx]%list_elem_of_filter. apply list_elem_of_filter.
    split; [done|by apply Hsub].
Qed.

Lemma completed_task_leaves_pending_witness :
  get_pending_tasks None chores
  ≡ₚ file_taxes :: get_pending_tasks None (complete_task "task_1767258060" chores).2.
Proof.
  apply (completed_task_leaves_pending "task_1767258060" chores 2 file_taxes).
  - vm_compute. reflexivity.
  - reflexivity.
  - intros [|[|m]] tm Hm Htm; [| |lia]; vm_compute in Htm;
      injection Htm as <-; vm_compute; discriminate.
  - vm_compute. discriminate.
Defined.

(** ** What a sweep fires *)

(** X7: a sweep that returns has fired, of the reminders that were in the
    store, exactly those that were untriggered with a trigger time at or
    before [now]; it has marked these and left the others as they were; the
    result lists the fired positions in increasing order, each a position
    of the store it leaves. *)
Theorem check_reminders_fires_the_due clock now la due la' :
  check_reminders clock now la = (Returned due, la') ->
  StronglySorted lt due
  /\ (forall k r, reminders la !! k = Some r ->
        (k ∈ due <-> is_due now r = true)
        /\ reminders la' !! k = Some (fire now r))
  /\ (forall k, k ∈ due -> is_Some (reminders la' !! k)).
Proof.
  intros Hsweep. pose proof (check_reminders_inv _ _ _ _ _ Hsweep) as Hinv.
  split; [apply (inv_sorted _ _ _ _ _ Hinv)|]. split.
  - intros k r Hr. pose proof (inv_old _ _ _ _ _ Hinv k r Hr) as Hold.
    pose proof (lookup_lt_Some _ _ _ Hr) as Hk.
    pose proof (inv_len _ _ _ _ _ Hinv) as Hlen.
    rewrite bool_decide_true in Hold by lia. simpl in Hold. split; [|done]. split.
    + intros Hin. by eapply fired_was_untriggered.
    + intros Hdue. apply (inv_due _ _ _ _ _ Hinv). split; [lia|].
      rewrite Hdue in Hold. exists (mark_triggered r).
      apply is_due_spec in Hdue as [Hut Htime].
      repeat split; try done. congruence.
  - intros k (_ & r & Hr & _)%(inv_due _ _ _ _ _ Hinv). by exists r.
Qed.

Lemma check_reminders_fires_the_due_witness :
  (2%nat ∈ [0; 1; 2; 3; 4; 5; 7]%nat <-> is_due morning
     {| rem_id := "rem_1767257991"; rem_message := "weekly review";
        rem_trigger_time := morning - timedelta_days 8; rem_recurring := true;
        rem_recurrence_pattern := Some "weekly"%string;
        rem_is_triggered := false |} = true)
  /\ reminders (check_reminders steady_clock morning backlog_store).2 !! 2%nat
     = Some weekly_review.
Proof.
  assert (check_reminders steady_clock morning backlog_store
          = (Returned [0; 1; 2; 3; 4; 5; 7]%nat,
             (check_reminders steady_clock morning backlog_store).2)) as Hsweep
    by (vm_compute; reflexivity).
  destruct (check_reminders_fires_the_due _ _ _ _ _ Hsweep) as (_ & Hold & _).
  apply (Hold 2%nat). vm_compute. reflexivity.
Defined.

(** X8: when no reminder of the store is due at [now] (the empty store
    among others), [check_reminders] returns the empty list, changes
    nothing and does not raise. *)
Theorem check_reminders_nothing_due clock now la :
  (forall k r, reminders la !! k = Some r ->
     rem_is_triggered r = true \/ now < rem_trigger_time r) ->
  check_reminders clock now la = (Returned [], la).
Proof.
  intros Hnone. apply sweep_quiescent. intros k r Hr.
  unfold is_due. destruct (Hnone k r Hr) as [->|Hlt]; [done|].
  apply andb_false_iff. right. by apply Z.leb_gt.
Qed.

Lemma check_reminders_nothing_due_witness :
  check_reminders steady_clock (morning - timedelta_days 30) backlog_store
  = (Returned [], backlog_store)
  /\ check_reminders steady_clock morning empty_assistant = (Returned [], empty_assistant).
Proof.
  split.
  - apply (check_reminders_nothing_due steady_clock (morning - timedelta_days 30)
             backlog_store).
    intros [|[|[|k]]] r Hr; vm_compute in Hr; [injection Hr as <-..|done];
      right; vm_compute; reflexivity.
  - apply (check_reminders_nothing_due steady_clock morning empty_assistant).
    intros k r Hr. done.
Defined.

(** A sweep from position [i] on a store whose due reminders from [i] on
    do not recur returns and keeps the length of the store. *)
Lemma sweep_one_off clock now la :
  forall i due,
  (forall k r, (i <= k)%nat -> reminders la !! k = Some r ->
     is_due now r = true -> recurs r = false) ->
  exists due' la', sweep clock now i due la = (Returned due', la')
                   /\ length (reminders la') = length (reminders la).
Proof.
  intros i due.
  remember (length (reminders la) - i)%nat as n eqn:Hn.
  revert la i due Hn. induction n as [|n IH]; intros la i due Hn Hone;
    rewrite sweep_step.
  - rewrite decide_False by lia. eauto.
  - rewrite decide_True by lia.
    pose proof (visit_cases (clock i) now i la ltac:(lia)) as Hc.
    inversion Hc as [r Hr Hdue Heq|r Hr Hdue Hrec Heq|r t Hr Hdue Hrec|r e Hr Hdue Hrec];
      try (rewrite (Hone i r (le_n i) Hr Hdue) in Hrec; discriminate).
    + apply IH; [lia|]. intros k rk Hk. apply Hone. lia.
    + destruct (IH (set_reminders (<[i := mark_triggered r]> (reminders la)) la)
                  (S i) (due ++ [i])) as (due' & la' & Hs & Hlen).
      * simpl. rewrite length_insert. lia.
      * intros k rk Hk. simpl. rewrite list_lookup_insert_ne by lia.
        apply Hone. lia.
      * exists due', la'. split; [done|]. rewrite Hlen. simpl. apply length_insert.
Qed.

(** X9: when none of the reminders due at [now] recurs (a reminder flagged
    recurring without a pattern, or with the empty pattern, does not
    recur), [check_reminders] returns, creates no reminder and leaves the
    store with every due reminder marked and nothing else changed; the
    result holds exactly the positions of the due reminders. *)
Theorem check_reminders_one_off clock now la :
  (forall k r, reminders la !! k = Some r -> is_due now r = true ->
     rem_recurring r = false \/ rem_recurrence_pattern r = None
     \/ rem_recurrence_pattern r = Some ""%string) ->
  exists due,
    check_reminders clock now la
    = (Returned due, set_reminders (fire now <$> reminders la) la)
    /\ forall k, k ∈ due <-> exists r, reminders la !! k = Some r /\ is_due now r = true.
Proof.
  intros Hone.
  destruct (sweep_one_off clock now la 0 []) as (due & la' & Hs & Hlen).
  { intros k r _ Hr Hdue. unfold recurs.
    destruct (Hone k r Hr Hdue) as [->|[->| ->]]; [done|by rewrite andb_false_r..]. }
  fold (check_reminders clock now la) in Hs.
  pose proof (check_reminders_inv _ _ _ _ _ Hs) as Hinv.
  assert (la' = set_reminders (fire now <$> reminders la) la) as ->.
  { pose proof (inv_tasks _ _ _ _ _ Hinv) as Ht.
    pose proof (inv_config _ _ _ _ _ Hinv) as Hc.
    assert (reminders la' = fire now <$> reminders la) as Hr.
    { apply list_eq. intros k. rewrite list_lookup_fmap.
      destruct (reminders la !! k) as [r|] eqn:Hk; simpl.
      - rewrite (inv_old _ _ _ _ _ Hinv k r Hk).
        rewrite bool_decide_true; [done|]. apply lookup_lt_Some in Hk. lia.
      - apply lookup_ge_None. apply lookup_ge_None in Hk. lia. }
    destruct la'. simpl in *. unfold set_reminders. by subst. }
  exists due. split; [done|]. intros k. split.
  - intros (Hk & r' & Hr' & Htrig & Htime & Horig)%(inv_due _ _ _ _ _ Hinv).
    simpl in Hk. rewrite length_fmap in Hk.
    destruct (lookup_lt_is_Some_2 _ _ Hk) as [r Hr]. exists r. split; [done|].
    simpl in Hr'. rewrite list_lookup_fmap, Hr in Hr'. injection Hr' as <-.
    apply is_due_spec. split; [by apply Horig|]. unfold fire in Htime.
    by destruct (is_due now r).
  - intros (r & Hr & Hdue). apply (inv_due _ _ _ _ _ Hinv).
    pose proof (lookup_lt_Some _ _ _ Hr) as Hk.
    split; [simpl; by rewrite length_fmap|]. exists (mark_triggered r).
    assert (fire now r = mark_triggered r) as Hf by (unfold fire; by rewrite Hdue).
    unfold set_reminders. cbn [reminders]. rewrite list_lookup_fmap, Hr.
    cbn [fmap option_fmap option_map]. rewrite Hf.
    apply is_due_spec in Hdue as [Hut Htime]. repeat split; try done. congruence.
Qed.

Lemma check_reminders_one_off_witness :
  exists due,
    check_reminders steady_clock morning patternless_store
    = (Returned due,
       set_reminders (fire morning <$> reminders patternless_store) patternless_store)
    /\ forall k, k ∈ due <->
         exists r, reminders patternless_store !! k = Some r /\ is_due morning r = true.
Proof.
  apply (check_reminders_one_off steady_clock morning patternless_store).
  intros [|k] r Hr Hdue; [|done]. vm_compute in Hr. injection Hr as <-. right. by left.
Defined.

(** ** Successors created by a sweep *)

Lemma filter_ext_Forall {A} (P Q : A -> Prop) `{!forall x, Decision (P x)}
    `{!forall x, Decision (Q x)} (l : list A) :
  Forall (fun x => P x <-> Q x) l -> filter P l = filter Q l.
Proof.
  induction 1 as [|x l Hx _ IH]; [done|].
  rewrite !filter_cons, IH. destruct (decide (P x)), (decide (Q x)); tauto.
Qed.

Lemma iterations_length clock now la0 i due la :
  rtc (iteration clock now) (0%nat, [], la0) (i, due, la) ->
  length (reminders la)
  = (length (reminders la0) + length (filter (fun k => recurs_at la k = true) due))%nat.
Proof.
  intros Hrtc.
  apply (rtc_ind_r
           (fun st => length (reminders st.2)
                      = (length (reminders la0)
                         + length (filter (fun k => recurs_at st.2 k = true) st.1.2))%nat)
           (0%nat, [], la0)) in Hrtc; [done|simpl; lia|].
  clear Hrtc i due la. intros [[i due] la] st' Hpre Hstep IH. simpl in IH.
  pose proof (sweep_inv_rtc _ _ _ _ _ _ Hpre) as Hinv.
  inversion Hstep as [i0 due0 la1 fired la' Hi Hv]; subst. simpl.
  apply visit_effect in Hv as (r & extra & Hr & Hfired & _ & _ & Hrems & Hextra); [|done].
  assert (forall k, (k < length (reminders la))%nat ->
            recurs_at la' k = recurs_at la k) as Hsame.
  { intros k Hk. unfold recurs_at. rewrite Hrems.
    rewrite lookup_app_l by (by rewrite length_insert).
    destruct (decide (k = i)) as [->|Hne].
    - rewrite list_lookup_insert_eq by done. rewrite Hr. simpl. by destruct fired.
    - by rewrite list_lookup_insert_ne by done. }
  assert (filter (fun k => recurs_at la' k = true) due
          = filter (fun k => recurs_at la k = true) due) as Hdue.
  { apply filter_ext_Forall, Forall_forall. intros k Hk.
    apply (inv_due _ _ _ _ _ Hinv) in Hk as [Hk _]. rewrite Hsame by lia. done. }
  assert (recurs_at la' i = recurs r) as Hi'.
  { rewrite Hsame by done. unfold recurs_at. by rewrite Hr. }
  rewrite Hrems, length_app, length_insert, IH.
  destruct Hextra as [[-> Hnone]|(t & -> & -> & Hrec & _)]; simpl.
  - destruct fired; simpl in Hnone.
    + rewrite filter_app, length_app, Hdue, filter_cons, filter_nil, Hi', Hnone.
      simpl. lia.
    + rewrite Hdue. lia.
  - rewrite filter_app, length_app, Hdue, filter_cons, filter_nil, Hi', Hrec.
    simpl. lia.
Qed.

(** X10: a sweep that returns has appended one reminder for each fired
    reminder that recurs, and none otherwise: the store has grown by the
    number of recurring reminders among the fired ones. *)
Theorem check_reminders_growth clock now la due la' :
  check_reminders clock now la = (Returned due, la') ->
  length (reminders la')
  = (length (reminders la)
     + length (filter (fun k => recurs_at la' k = true) due))%nat.
Proof.
  intros (j & Hrtc & _)%sweep_returned. by eapply iterations_length.
Qed.

Lemma check_reminders_growth_witness :
  length (reminders (check_reminders steady_clock morning backlog_store).2)
  = (length (reminders backlog_store)
     + length (filter (fun k => recurs_at
                         (check_reminders steady_clock morning backlog_store).2 k = true)
                 [0; 1; 2; 3; 4; 5; 7]))%nat.
Proof.
  apply (check_reminders_growth steady_clock morning backlog_store).
  vm_compute. reflexivity.
Defined.

Lemma iterations_config clock now st st' :
  rtc (iteration clock now) st st' -> la_config st'.2 = la_config st.2.
Proof.
  induction 1 as [|st st1 st' Hstep _ IH]; [done|]. rewrite IH.
  destruct Hstep as [i due la fired la' Hi Hv]. simpl.
  by apply visit_effect in Hv as (r & extra & _ & _ & _ & Hc & _).
Qed.

(** X11: whether it returns or raises, [check_reminders] leaves the tasks
    and the configuration alone, removes no reminder, and keeps every
    reminder at its position, unchanged or marked as triggered. *)
Theorem check_reminders_frame clock now la :
  let la' := (check_reminders clock now la).2 in
  tasks la' = tasks la
  /\ la_config la' = la_config la
  /\ (length (reminders la) <= length (reminders la'))%nat
  /\ (forall k r, reminders la !! k = Some r ->
        reminders la' !! k = Some r
        \/ (rem_is_triggered r = false /\ rem_trigger_time r <= now
            /\ reminders la' !! k = Some (mark_triggered r))).
Proof.
  simpl. split; [apply sweep_tasks|].
  assert (forall j due_j la_j,
            rtc (iteration clock now) (0%nat, [], la) (j, due_j, la_j) ->
            forall k r, reminders la !! k = Some r ->
              reminders la_j !! k = Some r
              \/ (rem_is_triggered r = false /\ rem_trigger_time r <= now
                  /\ reminders la_j !! k = Some (mark_triggered r))) as Hold.
  { intros j due_j la_j Hinv%sweep_inv_rtc k r Hr.
    rewrite (inv_old _ _ _ _ _ Hinv k r Hr).
    destruct (bool_decide (k < j)%nat); simpl; [|by left].
    destruct (is_due now r) eqn:Hdue; [|by left].
    right. by apply is_due_spec in Hdue as [? ?]. }
  unfold check_reminders.
  destruct (sweep clock now 0 [] la) as [[due|e] la'] eqn:Hs; simpl.
  - apply sweep_returned in Hs as (j & Hrtc & _).
    pose proof (sweep_inv_rtc _ _ _ _ _ _ Hrtc) as Hinv.
    split; [apply (inv_config _ _ _ _ _ Hinv)|].
    split; [apply (inv_len _ _ _ _ _ Hinv)|]. by apply (Hold j due).
  - apply sweep_raised in Hs as (j & due_j & la_j & Hrtc & Hj & Hv).
    pose proof (sweep_inv_rtc _ _ _ _ _ _ Hrtc) as Hinv.
    pose proof (visit_cases (clock j) now j la_j Hj) as Hc. rewrite Hv in Hc.
    inversion Hc as [| | |r e' Hr Hdue Hrec Hnext]; subst. simpl.
    split; [apply (inv_config _ _ _ _ _ Hinv)|].
    split; [rewrite length_insert; apply (inv_len _ _ _ _ _ Hinv)|].
    intros k rk Hrk. destruct (decide (k = j)) as [->|Hne].
    + rewrite list_lookup_insert_eq by done.
      apply is_due_spec in Hdue as [Hut Htime].
      destruct (Hold _ _ _ Hrtc j rk Hrk) as [Hsame|(Hrt & Hrn & Hsame)].
      * assert (rk = r) as -> by congruence. right. done.
      * rewrite Hr in Hsame. injection Hsame as ->. done.
    + rewrite list_lookup_insert_ne by done. by apply (Hold j due_j).
Qed.

(** X12: [check_reminders] raises only [OverflowError], and only at a
    reminder that is due, recurs and whose next occurrence is out of the
    range of datetimes; that reminder is left marked as triggered, and the
    reminders of the store after it are not visited: they are as they
    were, due or not. *)
Theorem check_reminders_raise clock now la e la' :
  check_reminders clock now la = (Raised e, la') ->
  e = OverflowError
  /\ exists j r,
       reminders la' !! j = Some (mark_triggered r)
       /\ is_due now r = true /\ recurs r = true
       /\ next_of r = Raised OverflowError
       /\ forall k r0, (j < k)%nat -> reminders la !! k = Some r0 ->
            reminders la' !! k = Some r0.
Proof.
  intros Hs. pose proof (sweep_raises_overflow _ _ _ _ _ _ _ Hs) as ->.
  split; [done|].
  apply sweep_raised in Hs as (j & due_j & la_j & Hrtc & Hj & Hv).
  pose proof (sweep_inv_rtc _ _ _ _ _ _ Hrtc) as Hinv.
  pose proof (visit_cases (clock j) now j la_j Hj) as Hc. rewrite Hv in Hc.
  inversion Hc as [| | |r e' Hr Hdue Hrec Hnext]; subst.
  exists j, r. simpl. rewrite list_lookup_insert_eq by done.
  repeat split; try done.
  intros k r0 Hk Hr0. rewrite list_lookup_insert_ne by lia.
  rewrite (inv_old _ _ _ _ _ Hinv k r0 Hr0).
  by rewrite bool_decide_false by lia.
Qed.

Lemma check_reminders_raise_witness :
  exists j r,
    reminders (check_reminders steady_clock datetime_max doomsday_store).2 !! j
    = Some (mark_triggered r)
    /\ is_due datetime_max r = true /\ recurs r = true
    /\ next_of r = Raised OverflowError
    /\ forall k r0, (j < k)%nat -> reminders doomsday_store !! k = Some r0 ->
         reminders (check_reminders steady_clock datetime_max doomsday_store).2 !! k
         = Some r0.
Proof.
  apply (check_reminders_raise steady_clock datetime_max doomsday_store OverflowError).
  vm_compute. reflexivity.
Defined.

(** ** What a request can change *)

(** X13: whatever the request and however it ends, [process_user_request]
    leaves the configuration, the client handle and the counters of
    comments and completed tasks and the day of the last reset alone; the
    post counter stays or grows by one; the tasks and the reminders that
    were there are kept as they were, and at most one task or reminder is
    appended, pending or untriggered, carrying the raw text of the
    request. *)
Theorem process_user_request_frame env request co :
  let co' := (process_user_request env request co).2 in
  config co' = config co
  /\ moltbook_client co' = moltbook_client co
  /\ la_config (life_assistant co') = la_config (life_assistant co)
  /\ comments_made (daily_stats co') = comments_made (daily_stats co)
  /\ tasks_completed (daily_stats co') = tasks_completed (daily_stats co)
  /\ last_reset (daily_stats co') = last_reset (daily_stats co)
  /\ (posts_made (daily_stats co') = posts_made (daily_stats co)
      \/ posts_made (daily_stats co') = posts_made (daily_stats co) + 1)
  /\ exists new_tasks new_reminders,
       tasks (life_assistant co') = tasks (life_assistant co) ++ new_tasks
       /\ reminders (life_assistant co') = reminders (life_assistant co) ++ new_reminders
       /\ (length new_tasks + length new_reminders <= 1)%nat
       /\ Forall (fun t => task_title t = request /\ task_status t = "pending"%string)
            new_tasks
       /\ Forall (fun r => rem_message r = request /\ rem_is_triggered r = false
                           /\ rem_recurring r = false) new_reminders.
Proof.
  assert (forall co0 : AgentCoordinator,
            tasks (life_assistant co0) = tasks (life_assistant co0) ++ []
            /\ reminders (life_assistant co0) = reminders (life_assistant co0) ++ []
            /\ (length (@nil Task) + length (@nil Reminder) <= 1)%nat
            /\ Forall (fun t => task_title t = request /\ task_status t = "pending"%string) []
            /\ Forall (fun r => rem_message r = request /\ rem_is_triggered r = false
                                /\ rem_recurring r = false) []) as Hnone.
  { intros co0. rewrite !app_nil_r. repeat split; (done || by constructor). }
  simpl. rewrite router_rule_order.
  destruct (any_in task_keywords (lower request)).
  { unfold task_management. destruct (contains "remind" (lower request)).
    - unfold bind, lift, datetime_add. destruct (_ && _); simpl.
      + split_and!; try done; try (by left). eexists [], [_]. simpl.
        rewrite app_nil_r. split_and!; try done; by repeat constructor.
      + split_and!; try done; try (by left). eexists [], []. apply Hnone.
    - simpl. split_and!; try done; try (by left). eexists [_], []. simpl.
      rewrite app_nil_r. split_and!; try done; by repeat constructor. }
  destruct (any_in search_keywords (lower request)).
  { simpl. split_and!; try done; try (by left). eexists [], []. apply Hnone. }
  destruct (any_in social_keywords (lower request)).
  { unfold social_action, bind, get. simpl.
    destruct (enable_moltbook (config co)); simpl;
      [|split_and!; try done; try (by left); eexists [], []; apply Hnone].
    destruct (moltbook_client co) eqn:Hc; simpl;
      [|split_and!; try done; try (by left); eexists [], []; apply Hnone].
    unfold lift. destruct (env_create_post _ _ _) as [[post_id|type_name]|e]; simpl.
    - split_and!; try done; try (by right). eexists [], []. apply Hnone.
    - split_and!; try done; try (by right). eexists [], []. apply Hnone.
    - split_and!; try done; try (by left). eexists [], []. apply Hnone. }
  destruct (any_in summary_keywords (lower request)); simpl;
    (split_and!; try done; try (by left); eexists [], []; apply Hnone).
Qed.

(** X14: for an ASCII request, [process_user_request] raises in three
    cases only.  A reminder request when one hour after [datetime.now()]
    is out of the range of datetimes raises [OverflowError], and a social
    request of a coordinator with the feature on and a client raises what
    [create_post] raises: in both the coordinator is left as it was.  A
    social request whose [create_post] returns a JSON value that is not
    an object raises the [AttributeError] of [result.get], after the post
    has been counted: the coordinator is left with [posts_made] one
    higher and nothing else changed. *)
Theorem process_user_request_raised env request co e :
  isascii request = true ->
  (process_user_request env request co).1 = Raised e ->
  let title := ("Daily Update from " +:+ owner_name (config co) +:+ "'s Assistant")%string in
  let content := _generate_social_content (env_choice env) co in
  (e = OverflowError
   /\ (process_user_request env request co).2 = co
   /\ any_in task_keywords (lower request) = true
   /\ contains "remind" (lower request) = true
   /\ ~ valid_datetime (env_now env + timedelta_hours 1))
  \/ (any_in task_keywords (lower request) = false
      /\ any_in search_keywords (lower request) = false
      /\ any_in social_keywords (lower request) = true
      /\ enable_moltbook (config co) = true
      /\ is_Some (moltbook_client co)
      /\ ((env_create_post env title content = Raised e
           /\ (process_user_request env request co).2 = co)
          \/ (exists type_name,
                env_create_post env title content = Returned (reply_other type_name)
                /\ e = ClientError ("'" +:+ type_name
                                    +:+ "' object has no attribute 'get'")
                /\ (process_user_request env request co).2 = incr_posts co))).
Proof.
  intros _. cbv zeta. rewrite router_rule_order.
  destruct (any_in task_keywords (lower request)).
  { unfold task_management. destruct (contains "remind" (lower request)); [|done].
    unfold bind, lift, datetime_add.
    destruct (_ && _) eqn:Hrange; simpl; [done|].
    intros [= <-]. left. split_and!; try done.
    intros [Hmin Hmax]. apply andb_false_iff in Hrange as [H|H]; apply Z.leb_gt in H; lia. }
  destruct (any_in search_keywords (lower request)); [done|].
  destruct (any_in social_keywords (lower request)).
  { unfold social_action, bind, get. simpl.
    destruct (enable_moltbook (config co)); simpl; [|done].
    destruct (moltbook_client co); simpl; [|done].
    unfold lift.
    destruct (env_create_post _ _ _) as [[post_id|type_name]|e0] eqn:Hpost; simpl; [done| |].
    - intros [= <-]. right. split_and!; try done. right. by exists type_name.
    - intros [= <-]. right. split_and!; try done. by left. }
  by destruct (any_in summary_keywords (lower request)).
Qed.

Lemma process_user_request_raised_witness :
  (env_create_post flaky_request_env "Daily Update from Alex's Assistant"
     (_generate_social_content 1 social_coordinator)
   = Raised (ClientError "connection reset")
   /\ (process_user_request flaky_request_env "share my day" social_coordinator).2
      = social_coordinator)
  /\ (process_user_request list_reply_env "share my day" social_coordinator).2
     = incr_posts social_coordinator.
Proof.
  split.
  - destruct (process_user_request_raised flaky_request_env "share my day"
                social_coordinator (ClientError "connection reset") eq_refl)
      as [(Hov & _)|(_ & _ & _ & _ & _ & [Hraised|(ty & Hty & _)])].
    + vm_compute. reflexivity.
    + discriminate Hov.
    + exact Hraised.
    + discriminate Hty.
  - destruct (process_user_request_raised list_reply_env "share my day"
                social_coordinator
                (ClientError "'list' object has no attribute 'get'") eq_refl)
      as [(Hov & _)|(_ & _ & _ & _ & _ & [(Hraised & _)|(ty & _ & _ & Hposts)])].
    + vm_compute. reflexivity.
    + discriminate Hov.
    + discriminate Hraised.
    + exact Hposts.
Defined.

(** X15: [process_user_request] does not look at [max_daily_posts]: with
    the feature on and a client, every ASCII request that goes to the
    social branch and whose [create_post] returns raises the post counter
    by one, whatever the limit and the count so far, and whatever the
    reply is. *)
Theorem posts_not_capped requests co :
  enable_moltbook (config co) = true -> is_Some (moltbook_client co) ->
  Forall posts requests ->
  posts_made (daily_stats (run_requests requests co))
  = posts_made (daily_stats co) + Z.of_nat (length requests).
Proof.
  intros Hen Hcl Hposts. revert co Hen Hcl.
  induction Hposts as [|[env request] requests (_ & Ht & Hs & Hso & Hret) _ IH];
    intros co Hen [c Hc]; [simpl; lia|].
  cbn [fst snd] in Ht, Hs, Hso, Hret. unfold run_requests. cbn [foldl fst snd].
  fold (run_requests requests (process_user_request env request co).2).
  destruct (Hret ("Daily Update from " +:+ owner_name (config co) +:+ "'s Assistant")%string
              (_generate_social_content (env_choice env) co)) as [result Hres].
  assert ((process_user_request env request co).2 = incr_posts co) as ->.
  { rewrite router_rule_order, Ht, Hs, Hso.
    unfold social_action, bind, get. simpl. rewrite Hen, Hc. simpl.
    unfold lift. rewrite Hres. by destruct result. }
  rewrite IH; [simpl; lia|done|by exists c].
Qed.

Lemma posts_not_capped_witness :
  max_daily_posts (config social_coordinator) = 3
  /\ posts_made (daily_stats
       (run_requests (replicate 5 (quiet_request_env, "share my day"%string))
          social_coordinator)) = 0 + 5.
Proof.
  split; [reflexivity|].
  apply (posts_not_capped (replicate 5 (quiet_request_env, "share my day"%string))
           social_coordinator).
  - reflexivity.
  - vm_compute. by eexists.
  - apply Forall_replicate. repeat split; try (vm_compute; reflexivity).
    intros title content. by eexists.
Defined.

(** X16: an ASCII request with no task keyword that has a search keyword,
    or no social keyword, is answered without any change of the
    coordinator, and always with a text. *)
Theorem process_user_request_read_only env request co :
  isascii request = true ->
  any_in task_keywords (lower request) = false ->
  any_in search_keywords (lower request) = true
  \/ any_in social_keywords (lower request) = false ->
  exists reply, process_user_request env request co = (Returned (Some reply), co).
Proof.
  intros _ Ht Hor. rewrite router_rule_order, Ht.
  destruct (any_in search_keywords (lower request)); [by eexists|].
  destruct Hor as [Hs|Hso]; [done|]. rewrite Hso.
  destruct (any_in summary_keywords (lower request)); by eexists.
Qed.

Lemma process_user_request_read_only_witness :
  exists reply,
    process_user_request flaky_request_env "What is on Moltbook?" social_coordinator
    = (Returned (Some reply), social_coordinator).
Proof.
  apply (process_user_request_read_only flaky_request_env "What is on Moltbook?"
           social_coordinator).
  - reflexivity.
  - vm_compute. reflexivity.
  - left. vm_compute. reflexivity.
Defined.

(** ** A reminder set by a request, and the sweep *)

(** X17: a reminder request appends a one-off reminder due one hour after
    the request; a later sweep that returns fires it if and only if that
    hour has passed, and leaves it with the text of the request. *)
Theorem requested_reminder_fires env request co clock now2 due la2 :
  any_in task_keywords (lower request) = true ->
  contains "remind" (lower request) = true ->
  valid_datetime (env_now env + timedelta_hours 1) ->
  check_reminders clock now2
    (life_assistant (process_user_request env request co).2) = (Returned due, la2) ->
  let k := length (reminders (life_assistant co)) in
  (k ∈ due <-> env_now env + timedelta_hours 1 <= now2)
  /\ exists r, reminders la2 !! k = Some r
       /\ rem_message r = request
       /\ rem_trigger_time r = env_now env + timedelta_hours 1
       /\ recurs r = false.
Proof.
  intros Ht Hremind [Hmin Hmax] Hsweep k.
  assert (life_assistant (process_user_request env request co).2
          = (add_reminder (env_secs env) request (env_now env + timedelta_hours 1)
               false None (life_assistant co)).2) as Hla.
  { rewrite router_rule_order, Ht. unfold task_management. rewrite Hremind.
    unfold bind, lift, datetime_add.
    replace ((datetime_min <=? _) && _) with true; [done|].
    symmetry. apply andb_true_iff. split; by apply Z.leb_le. }
  rewrite Hla in Hsweep. clear Hla.
  set (r0 := {| rem_id := "rem_" +:+ str_of_int (env_secs env); rem_message := request;
                rem_trigger_time := env_now env + timedelta_hours 1;
                rem_recurring := false; rem_recurrence_pattern := None;
                rem_is_triggered := false |}).
  assert (reminders (add_reminder (env_secs env) request
                       (env_now env + timedelta_hours 1) false None
                       (life_assistant co)).2 !! k = Some r0) as Hk.
  { simpl. subst k. by rewrite lookup_app_r, Nat.sub_diag by lia. }
  pose proof (check_reminders_inv _ _ _ _ _ Hsweep) as Hinv.
  pose proof (inv_old _ _ _ _ _ Hinv k r0 Hk) as Hold.
  rewrite bool_decide_true in Hold.
  2:{ pose proof (inv_pos _ _ _ _ _ Hinv) as Hp. pose proof (inv_len _ _ _ _ _ Hinv) as Hl.
      apply lookup_lt_Some in Hk. lia. }
  simpl in Hold. split.
  - split.
    + intros Hin. pose proof (fired_was_untriggered _ _ _ _ _ _ _ Hsweep Hin Hk) as Hdue.
      by apply is_due_spec in Hdue as [_ Hdue].
    + intros Hdue. apply (inv_due _ _ _ _ _ Hinv).
      split; [apply lookup_lt_Some in Hk; pose proof (inv_len _ _ _ _ _ Hinv); lia|].
      exists (mark_triggered r0). split.
      * rewrite Hold. replace (is_due now2 r0) with true; [done|].
        symmetry. by apply is_due_spec.
      * repeat split; try done. intros r1 Hr1. rewrite Hk in Hr1. by injection Hr1 as <-.
  - eexists. split; [exact Hold|]. by destruct (is_due now2 r0).
Qed.

Lemma requested_reminder_fires_witness :
  (0%nat ∈ [0%nat] <-> morning + timedelta_hours 1 <= morning + timedelta_hours 2)
  /\ exists r,
       reminders (check_reminders steady_clock (morning + timedelta_hours 2)
                    (life_assistant
                       (process_user_request quiet_request_env "remind me to stretch"
                          fresh_coordinator).2)).2 !! 0%nat = Some r
       /\ rem_message r = "remind me to stretch"%string
       /\ rem_trigger_time r = morning + timedelta_hours 1
       /\ recurs r = false.
Proof.
  apply (requested_reminder_fires quiet_request_env "remind me to stretch"
           fresh_coordinator steady_clock (morning + timedelta_hours 2) [0%nat]).
  - vm_compute. reflexivity.
  - vm_compute. reflexivity.
  - split; vm_compute; discriminate.
  - vm_compute. reflexivity.
Defined.

(** ** The heartbeat *)

Lemma reset_daily_stats_run now co :
  reset_daily_stats now co
  = (Returned tt,
     if bool_decide (date_of now = last_reset (daily_stats co)) then co
     else set_daily_stats (fresh_stats (date_of now)) co).
Proof.
  unfold reset_daily_stats, bind, get, modify.
  destruct (decide (date_of now = last_reset (daily_stats co))) as [Heq|Hne].
  - rewrite bool_decide_false by (intros Hne; by apply Hne).
    by rewrite bool_decide_true by done.
  - rewrite bool_decide_true by done. by rewrite bool_decide_false by done.
Qed.

Lemma reset_daily_stats_assistant now co :
  life_assistant (reset_daily_stats now co).2 = life_assistant co.
Proof. rewrite reset_daily_stats_run. simpl. by case_bool_decide. Qed.

(** [autonomous_heartbeat] in one piece. *)
Lemma heartbeat_run env co :
  autonomous_heartbeat env co
  = let co1 := (reset_daily_stats (hb_reset_now env) co).2 in
    match check_reminders (hb_clock env) (hb_now env) (life_assistant co) with
    | (Raised e, la') => (Raised e, set_life_assistant la' co1)
    | (Returned due, la') =>
        let co2 := set_life_assistant la' co1 in
        if engages env co2 then
          match engage env co2 with
          | (Returned _, co3) => (Returned (notices_of la' due ++ []), co3)
          | (Raised e, co3) =>
              (Returned (notices_of la' due
                         ++ ["[Heartbeat Error] " +:+ exn_str e]%string), co3)
          end
        else (Returned (notices_of la' due), co2)
    end.
Proof.
  cbv zeta. rewrite <- (reset_daily_stats_assistant (hb_reset_now env) co).
  unfold autonomous_heartbeat, bind, in_assistant, zoom, get, try_except, ret, engages.
  rewrite reset_daily_stats_run. cbn [fst snd].
  destruct (check_reminders _ _ _) as [[due|e] la']; [|done].
  cbn [fst snd]. unfold notices_of.
  destruct (enable_moltbook _ && _ && _); cbn [andb]; [|done].
  destruct (negb _); [|done].
  by destruct (engage env _) as [[[]|e] co3].
Qed.

Lemma engage_frame env co :
  config (engage env co).2 = config co
  /\ moltbook_client (engage env co).2 = moltbook_client co
  /\ life_assistant (engage env co).2 = life_assistant co
  /\ posts_made (daily_stats (engage env co).2) = posts_made (daily_stats co)
  /\ tasks_completed (daily_stats (engage env co).2) = tasks_completed (daily_stats co)
  /\ last_reset (daily_stats (engage env co).2) = last_reset (daily_stats co).
Proof. destruct (engage_effect env co) as [->|[_ ->]]; done. Qed.

Lemma heartbeat_assistant env co :
  life_assistant (autonomous_heartbeat env co).2
  = (check_reminders (hb_clock env) (hb_now env) (life_assistant co)).2.
Proof.
  rewrite heartbeat_run. cbv zeta.
  destruct (check_reminders _ _ _) as [[due|e] la']; cbn [snd]; [|done].
  destruct (engages env _); [|done].
  pose proof (engage_frame env (set_life_assistant la'
                (reset_daily_stats (hb_reset_now env) co).2)) as (_ & _ & H3 & _).
  destruct (engage env _) as [[[]|e] co3]; cbn [snd] in *; by rewrite H3.
Qed.

(** X18: however it ends, a heartbeat changes the assistant only by its
    sweep (so never the tasks), never the configuration or the client,
    and never raises the post counter; afterwards the day of the last
    reset is the day of the heartbeat, and the counters of posts and of
    completed tasks are those before it, or zero after a change of day. *)
Theorem heartbeat_frame env co :
  let co' := (autonomous_heartbeat env co).2 in
  let same_day := bool_decide (date_of (hb_reset_now env) = last_reset (daily_stats co)) in
  config co' = config co
  /\ moltbook_client co' = moltbook_client co
  /\ life_assistant co'
     = (check_reminders (hb_clock env) (hb_now env) (life_assistant co)).2
  /\ tasks (life_assistant co') = tasks (life_assistant co)
  /\ last_reset (daily_stats co') = date_of (hb_reset_now env)
  /\ posts_made (daily_stats co') = (if same_day then posts_made (daily_stats co) else 0)
  /\ tasks_completed (daily_stats co')
     = (if same_day then tasks_completed (daily_stats co) else 0).
Proof.
  cbv zeta. rewrite heartbeat_run. cbv zeta.
  pose proof (sweep_tasks (hb_clock env) (hb_now env) 0 [] (life_assistant co)) as Htasks.
  fold (check_reminders (hb_clock env) (hb_now env) (life_assistant co)) in Htasks.
  rewrite reset_daily_stats_run. cbn [snd].
  set (co1 := if bool_decide _ then co else _).
  assert (config co1 = config co /\ moltbook_client co1 = moltbook_client co
          /\ last_reset (daily_stats co1) = date_of (hb_reset_now env)
          /\ posts_made (daily_stats co1)
             = (if bool_decide (date_of (hb_reset_now env) = last_reset (daily_stats co))
                then posts_made (daily_stats co) else 0)
          /\ tasks_completed (daily_stats co1)
             = (if bool_decide (date_of (hb_reset_now env) = last_reset (daily_stats co))
                then tasks_completed (daily_stats co) else 0))
    as (Hcfg & Hcl & Hlast & Hposts & Hdone).
  { subst co1. case_bool_decide; done. }
  destruct (check_reminders _ _ _) as [[due|e] la']; cbn [snd] in *; [|done].
  destruct (engages env _); [|done].
  pose proof (engage_frame env (set_life_assistant la' co1))
    as (H1 & H2 & H3 & H4 & H5 & H6).
  destruct (engage env _) as [[[]|e] co3]; cbn [snd] in *;
    rewrite H1, H2, H3, H4, H5, H6; done.
Qed.

(** X19: a heartbeat raises exactly when its sweep of the reminders
    raises, with the same exception; what [browse_feed] and [comment]
    raise, a post without [id] included, never escapes it.  When it
    raises, no comment was made. *)
Theorem heartbeat_raises_iff env co e :
  ((autonomous_heartbeat env co).1 = Raised e
   <-> (check_reminders (hb_clock env) (hb_now env) (life_assistant co)).1 = Raised e)
  /\ ((autonomous_heartbeat env co).1 = Raised e ->
      e = OverflowError
      /\ daily_stats (autonomous_heartbeat env co).2
         = daily_stats (reset_daily_stats (hb_reset_now env) co).2).
Proof.
  rewrite heartbeat_run. cbv zeta.
  destruct (check_reminders _ _ _) as [[due|e'] la'] eqn:Hsweep; cbn [fst snd].
  - assert (forall o, (if engages env (set_life_assistant la'
                            (reset_daily_stats (hb_reset_now env) co).2)
             then match engage env (set_life_assistant la'
                            (reset_daily_stats (hb_reset_now env) co).2) with
                  | (Returned _, co3) => (Returned (notices_of la' due ++ []), co3)
                  | (Raised e0, co3) =>
                      (Returned (notices_of la' due
                                 ++ ["[Heartbeat Error] " +:+ exn_str e0]%string), co3)
                  end
             else (Returned (notices_of la' due),
                   set_life_assistant la' (reset_daily_stats (hb_reset_now env) co).2)).1
            = Raised o -> False) as Hnever.
    { intros o. destruct (engages env _); [|done].
      by destruct (engage env _) as [[[]|e0] co3]. }
    split; [split; [intros H; by apply Hnever in H|done]|].
    intros H. by apply Hnever in H.
  - split; [split; intros [= ->]; done|]. intros [= ->]. split; [|done].
    unfold check_reminders in Hsweep. by eapply sweep_raises_overflow.
Qed.

(** The state after the [try] block. *)
Lemma engage_state env co :
  (engage env co).2
  = match hb_browse_feed env with
    | Returned (Some post_id :: _) =>
        if comments_made (daily_stats co) <? max_daily_comments (config co) then
          match hb_comment env post_id "Interesting perspective! 🤖" with
          | Returned _ => incr_comments co
          | Raised _ => co
          end
        else co
    | _ => co
    end.
Proof.
  unfold engage, bind, lift, get, modify.
  destruct (hb_browse_feed env) as [[|[post_id|] feed]|e]; cbn [fst snd]; try done.
  - destruct (_ <? _); [|done]. by destruct (hb_comment env post_id _) as [[]|e].
  - by destruct (_ <? _).
Qed.

Lemma engages_spec env co :
  engages env co = true
  <-> enable_moltbook (config co) = true /\ is_Some (moltbook_client co)
      /\ posts_made (daily_stats co) < max_daily_posts (config co)
      /\ (hb_random env < 2 # 10)%Q.
Proof.
  unfold engages.
  rewrite !andb_true_iff, bool_decide_eq_true, Z.ltb_lt, negb_true_iff.
  assert (Qle_bool (2 # 10) (hb_random env) = false <-> (hb_random env < 2 # 10)%Q) as ->.
  { split.
    - intros Hq. apply Qnot_le_lt. intros Hle. apply Qle_bool_iff in Hle. congruence.
    - intros Hlt. destruct (Qle_bool _ _) eqn:Hq; [|done].
      apply Qle_bool_iff in Hq. by apply Qlt_not_le in Hlt. }
  tauto.
Qed.

(** X20: a heartbeat adds a comment, one, exactly when its sweep returns,
    the feature is on, there is a client, the posts of the day are below
    [max_daily_posts], the draw is below 0.2, the feed is not empty and
    its first post has an [id], the comments of the day are below
    [max_daily_comments], and the call of [comment] on that post returns;
    otherwise the comment counter is as the reset at its start left it. *)
Theorem heartbeat_comments_iff env co :
  let co1 := (reset_daily_stats (hb_reset_now env) co).2 in
  let co' := (autonomous_heartbeat env co).2 in
  (comments co' = comments co1 \/ comments co' = comments co1 + 1)
  /\ (comments co' = comments co1 + 1 <->
      exists due la' post_id feed,
        check_reminders (hb_clock env) (hb_now env) (life_assistant co)
        = (Returned due, la')
        /\ enable_moltbook (config co) = true
        /\ is_Some (moltbook_client co)
        /\ posts_made (daily_stats co1) < max_daily_posts (config co)
        /\ (hb_random env < 2 # 10)%Q
        /\ hb_browse_feed env = Returned (Some post_id :: feed)
        /\ comments co1 < quota co
        /\ hb_comment env post_id "Interesting perspective! 🤖" = Returned tt).
Proof.
  cbv zeta.
  destruct (reset_daily_stats_effect (hb_reset_now env) co) as (_ & Hcfg & Hcl & _).
  set (co1 := (reset_daily_stats (hb_reset_now env) co).2) in *.
  assert (exists co2,
            config co2 = config co /\ moltbook_client co2 = moltbook_client co
            /\ daily_stats co2 = daily_stats co1
            /\ (autonomous_heartbeat env co).2
               = match check_reminders (hb_clock env) (hb_now env) (life_assistant co) with
                 | (Returned _, _) =>
                     if engages env co2 then (engage env co2).2 else co2
                 | (Raised _, _) => co2
                 end) as (co2 & Hcfg2 & Hcl2 & Hds2 & Hrun).
  { rewrite heartbeat_run. cbv zeta. fold co1.
    destruct (check_reminders _ _ _) as [[due|e] la'];
      exists (set_life_assistant la' co1); split_and!; try done.
    destruct (engages env _); [|done]. by destruct (engage env _) as [[[]|e] co3]. }
  rewrite Hrun. clear Hrun.
  assert (comments co2 = comments co1) as Hc2 by (unfold comments; by rewrite Hds2).
  assert (comments (incr_comments co2) = comments co1 + 1) as Hincr
    by (unfold comments; simpl; by rewrite Hds2).
  pose proof (engages_spec env co2) as Hgates. rewrite Hcfg2, Hcl2, Hds2 in Hgates.
  rewrite engage_state, Hcfg2, Hds2.
  destruct (check_reminders _ _ _) as [[due|e] la'].
  2:{ rewrite Hc2. split; [by left|]. split; [lia|]. by intros (? & ? & ? & ? & ? & _). }
  destruct (engages env co2).
  2:{ rewrite Hc2. split; [by left|]. split; [lia|].
      intros (? & ? & ? & ? & _ & H1 & H2 & H3 & H4 & _).
      assert (false = true) by (apply Hgates; done). done. }
  destruct Hgates as [Hgates _]. destruct (Hgates eq_refl) as (Hen & Hsome & Hposts & Hrand).
  destruct (hb_browse_feed env) as [[|[post_id|] feed]|e];
    try (rewrite Hc2; split; [by left|]; split; [lia|];
         by intros (? & ? & ? & ? & _ & _ & _ & _ & _ & ? & _)).
  destruct (_ <? _) eqn:Hlt; [apply Z.ltb_lt in Hlt|apply Z.ltb_ge in Hlt].
  - destruct (hb_comment env post_id _) as [[]|e] eqn:Hcomment.
    + rewrite Hincr. split; [by right|]. split; [|done].
      intros _. exists due, la', post_id, feed. split_and!; done.
    + rewrite Hc2. split; [by left|]. split; [lia|].
      intros (? & ? & pid & ? & _ & _ & _ & _ & _ & Hfeed & _ & Habs).
      injection Hfeed as <- <-. congruence.
  - rewrite Hc2. split; [by left|]. split; [lia|].
    intros (? & ? & ? & ? & _ & _ & _ & _ & _ & _ & Habs & _).
    unfold comments, quota in Habs. lia.
Qed.

Lemma omap_lookups {A B} (f : A -> B) (l : list A) (due : list nat) :
  Forall (fun i => is_Some (l !! i)) due ->
  Forall2 (fun i b => exists a, l !! i = Some a /\ b = f a) due
          (omap (fun i => f <$> l !! i) due).
Proof.
  induction 1 as [|i due [a Ha] _ IH]; simpl; [constructor|].
  rewrite Ha. simpl. constructor; [by exists a|done].
Qed.

(** X21: the [print] statements of [autonomous_heartbeat] itself, in a
    heartbeat that returns, have written one line for every reminder its
    sweep fired, in the order of the store and with the text of the
    reminder, and after these at most one line, for an exception of the
    [try] block.  (The client may print lines of its own while it serves
    [browse_feed] and [comment]; they are not among the lines of the
    value.) *)
Theorem heartbeat_notices env co lines co' :
  autonomous_heartbeat env co = (Returned lines, co') ->
  exists due notices trouble,
    (check_reminders (hb_clock env) (hb_now env) (life_assistant co)).1 = Returned due
    /\ lines = notices ++ trouble
    /\ Forall2 (fun i line => exists r,
                  reminders (life_assistant co') !! i = Some r
                  /\ line = ("⏰ REMINDER: " +:+ rem_message r)%string)
         due notices
    /\ (trouble = [] \/ exists e, trouble = ["[Heartbeat Error] " +:+ exn_str e]%string).
Proof.
  intros Hrun. pose proof (heartbeat_assistant env co) as Hla.
  rewrite Hrun in Hla. cbn [snd] in Hla. rewrite Hla.
  rewrite heartbeat_run in Hrun. cbv zeta in Hrun.
  destruct (check_reminders _ _ _) as [[due|e] la'] eqn:Hsweep; [|done].
  assert (Forall2 (fun i line => exists r,
                     reminders la' !! i = Some r
                     /\ line = ("⏰ REMINDER: " +:+ rem_message r)%string)
            due (notices_of la' due)) as Hnotices.
  { apply omap_lookups, Forall_forall. intros k Hk.
    apply (inv_due _ _ _ _ _ (check_reminders_inv _ _ _ _ _ Hsweep)) in Hk
      as (_ & r & Hr & _). by exists r. }
  exists due, (notices_of la' due). cbn [fst snd].
  destruct (engages env _).
  - destruct (engage env _) as [[[]|e] co3]; injection Hrun as <- <-.
    + exists []. split_and!; try done. by left.
    + eexists. split_and!; try done. right. by eexists.
  - injection Hrun as <- <-. exists []. rewrite app_nil_r. split_and!; try done. by left.
Qed.

Lemma heartbeat_notices_witness :
  exists due notices trouble,
    (check_reminders (hb_clock idless_feed_env) (hb_now idless_feed_env)
       (life_assistant backlog_coordinator)).1 = Returned due
    /\ ["⏰ REMINDER: gym"; "⏰ REMINDER: call mom"; "⏰ REMINDER: weekly review";
        "⏰ REMINDER: gym"; "⏰ REMINDER: weekly review"; "⏰ REMINDER: gym";
        "⏰ REMINDER: gym"; "[Heartbeat Error] 'id'"]%string = notices ++ trouble
    /\ Forall2 (fun i line => exists r,
                  reminders (life_assistant
                               (autonomous_heartbeat idless_feed_env
                                  backlog_coordinator).2) !! i = Some r
                  /\ line = ("⏰ REMINDER: " +:+ rem_message r)%string)
         due notices
    /\ (trouble = [] \/ exists e, trouble = ["[Heartbeat Error] " +:+ exn_str e]%string).
Proof.
  apply (heartbeat_notices idless_feed_env backlog_coordinator).
  vm_compute. reflexivity.
Defined.

(** ** The priority filter of [get_pending_tasks] *)

Section SortedFilter.
Context {A : Type} (key : A -> Z) (P : A -> Prop) `{!forall x, Decision (P x)}.

Lemma insert_sorted_first x l :
  Forall (fun y => key x <= key y) l -> insert_sorted key x l = x :: l.
Proof.
  destruct 1 as [|y l Hy _]; simpl; [done|].
  by rewrite (proj2 (Z.ltb_ge _ _) Hy).
Qed.

Lemma filter_insert_sorted x l :
  StronglySorted (key_le key) l ->
  filter P (insert_sorted key x l)
  = if decide (P x) then insert_sorted key x (filter P l) else filter P l.
Proof.
  induction 1 as [|y l Hl IH Hy]; simpl.
  - rewrite filter_cons, filter_nil. by destruct (decide (P x)).
  - destruct (key y <? key x) eqn:Hlt.
    + rewrite !filter_cons, IH.
      destruct (decide (P y)), (decide (P x)); simpl; by rewrite ?Hlt.
    + apply Z.ltb_ge in Hlt. rewrite (filter_cons _ x).
      destruct (decide (P x)); [|done].
      rewrite insert_sorted_first; [done|].
      apply Forall_forall. intros z [_ Hz]%list_elem_of_filter.
      apply elem_of_cons in Hz as [->|Hz]; [done|].
      eapply Forall_forall in Hy; [|exact Hz]. unfold key_le in Hy. lia.
Qed.

Lemma filter_sorted l : filter P (sorted key l) = sorted key (filter P l).
Proof.
  induction l as [|x l IH]; simpl; [done|].
  rewrite filter_insert_sorted by apply sorted_sorted.
  rewrite filter_cons, IH. by destruct (decide (P x)).
Qed.
End SortedFilter.

(** X22: the priority filter of [get_pending_tasks] is tested for
    truthiness: the empty string filters nothing, like [None]; any other
    priority selects, from the unfiltered result and in its order, the
    tasks of that priority. *)
Theorem get_pending_tasks_filter la :
  get_pending_tasks (Some ""%string) la = get_pending_tasks None la
  /\ forall priority, priority <> ""%string ->
       get_pending_tasks (Some priority) la
       = filter (fun t => task_priority t = priority) (get_pending_tasks None la).
Proof.
  split; [done|]. intros priority Hne. unfold get_pending_tasks.
  cbn [truthy]. rewrite string_eqb_ne by done. cbn [negb].
  rewrite filter_sorted. f_equal. apply list_filter_iff.
  intros t. split; congruence.
Qed.

(** ** The counts of the daily summary *)

(** In a store reached by the operations every task is pending or
    completed. *)
Lemma la_step_statuses la la' :
  la_step la la' ->
  Forall (fun t => task_status t = "pending"%string
                   \/ task_status t = "completed"%string) (tasks la) ->
  Forall (fun t => task_status t = "pending"%string
                   \/ task_status t = "completed"%string) (tasks la').
Proof.
  destruct 1 as [secs now title description due_date priority tags la
                |task_id0 la| |clock now la]; intros Hall.
  - simpl. apply Forall_app. split; [done|]. constructor; [by left|constructor].
  - destruct (complete_first_spec task_id0 (tasks la)) as [[_ Hcf]|(i & t & Hi & _ & _ & Hcf)];
      unfold complete_task; rewrite Hcf; simpl; [done|].
    apply Forall_insert; [done|]. by right.
  - done.
  - unfold check_reminders. by rewrite sweep_tasks.
Qed.

Lemma sweep_config clock now i due la :
  la_config (sweep clock now i due la).2 = la_config la.
Proof.
  destruct (sweep clock now i due la) as [[due'|e] la'] eqn:Hs; simpl.
  - apply sweep_returned in Hs as (j & Hrtc & _).
    apply (iterations_config _ _ _ _ Hrtc).
  - apply sweep_raised in Hs as (j & due_j & la_j & Hrtc & Hj & Hv).
    apply iterations_config in Hrtc. simpl in Hrtc. rewrite <- Hrtc.
    pose proof (visit_cases (clock j) now j la_j Hj) as Hc. rewrite Hv in Hc.
    by inversion Hc.
Qed.

Lemma la_step_config la la' : la_step la la' -> la_config la' = la_config la.
Proof.
  destruct 1 as [| task_id0 la | |clock now la]; try done.
  - unfold complete_task. by destruct (complete_first _ _).
  - apply sweep_config.
Qed.

(** X23: in a store reached from a new assistant by its operations, the
    daily summary shows the owner of the configuration, as pending tasks
    the number of tasks [get_pending_tasks] returns, as high priority the
    number it returns under the filter [high], and as active reminders
    the number of untriggered reminders. *)
Theorem summary_counts cfg la :
  rtc la_step (LifeAssistant_init cfg) la ->
  generate_daily_summary la
  = summary_text (owner_name cfg)
      (length (get_pending_tasks None la))
      (length (get_pending_tasks (Some "high"%string) la))
      (length (filter (fun r => rem_is_triggered r = false) (reminders la))).
Proof.
  intros Hrtc.
  assert (la_config la = cfg
          /\ Forall (fun t => task_status t = "pending"%string
                              \/ task_status t = "completed"%string) (tasks la))
    as [Hcfg Hall].
  { apply (rtc_ind_r (fun la => la_config la = cfg
             /\ Forall (fun t => task_status t = "pending"%string
                                 \/ task_status t = "completed"%string) (tasks la))
             (LifeAssistant_init cfg)) in Hrtc; [done|by split|].
    intros la1 la2 _ Hstep [H1 H2]. split.
    - by rewrite (la_step_config _ _ Hstep).
    - by eapply la_step_statuses. }
  assert (length (get_pending_tasks None la)
          = length (filter (fun t => task_status t = "pending"%string) (tasks la))) as ->.
  { unfold get_pending_tasks. cbn [truthy]. rewrite (sorted_perm due_key _).
    f_equal. apply filter_ext_Forall. eapply Forall_impl; [exact Hall|].
    intros t [Hp|Hc]; simpl; rewrite ?Hp, ?Hc; split; congruence. }
  assert (length (get_pending_tasks (Some "high"%string) la)
          = length (filter (fun t => task_status t = "pending"%string
                                     /\ task_priority t = "high"%string) (tasks la))) as ->.
  { unfold get_pending_tasks. cbn [truthy String.eqb negb].
    rewrite (sorted_perm due_key _), list_filter_filter.
    f_equal. apply filter_ext_Forall. eapply Forall_impl; [exact Hall|].
    intros t [Hp|Hc]; simpl; rewrite ?Hp, ?Hc; split; intros [H1 H2];
      split; congruence. }
  unfold generate_daily_summary, summary_text, str_of_len. by rewrite Hcfg.
Qed.

Lemma summary_counts_witness :
  generate_daily_summary (complete_task "task_1767258060" chores).2
  = summary_text "User" 2 0 0.
Proof.
  apply (summary_counts default_config (complete_task "task_1767258060" chores).2).
  eapply rtc_r; [|apply step_complete_task]. unfold chores.
  eapply rtc_r; [|apply step_add_task].
  eapply rtc_r; [|apply step_add_task].
  eapply rtc_r; [|apply step_add_task].
  apply rtc_refl.
Defined.

(** ** The Moltbook client *)

Section ClientProperties.
Context {J : Type}.
Implicit Types (env : ClientEnv J) (cs : ClientState).

(** [authenticate] in one piece. *)
Lemma authenticate_run env cs :
  authenticate env cs
  = match ce_token env ("Bearer " +:+ cs_api_key cs) with
    | Returned (status, Returned v) =>
        if status =? 200 then
          match datetime_add (ce_auth_now env) (timedelta_hours 1) with
          | Returned expiry => (Returned true, set_token_expiry expiry (set_token v cs))
          | Raised _ => (Returned false, set_token v cs)
          end
        else (Returned false, cs)
    | _ => (Returned false, cs)
    end.
Proof.
  unfold authenticate, try_except, bind, get, lift, modify, ret.
  destruct (ce_token env _) as [[status [v|e]]|e]; cbn [fst snd]; try done.
  - destruct (status =? 200); [|done]. cbn [fst snd].
    by destruct (datetime_add _ _).
  - by destruct (status =? 200).
Qed.

Lemma authenticate_returns env cs :
  exists ok, (authenticate env cs).1 = Returned ok.
Proof.
  rewrite authenticate_run.
  destruct (ce_token env _) as [[status [v|e]]|e]; [| |by eexists].
  - destruct (status =? 200); [|by eexists]. destruct (datetime_add _ _); by eexists.
  - destruct (status =? 200); by eexists.
Qed.

Lemma datetime_add_valid t d :
  datetime_add t d = if decide (valid_datetime (t + d)) then Returned (t + d)
                     else Raised OverflowError.
Proof.
  unfold datetime_add, valid_datetime.
  destruct (datetime_min <=? t + d) eqn:Hlo, (t + d <=? datetime_max) eqn:Hhi;
    cbn [andb]; rewrite ?Z.leb_le, ?Z.leb_gt in *;
    [by rewrite decide_True|rewrite decide_False by lia..]; done.
Qed.

(** X24: [authenticate] never raises.  It returns [True] exactly when the
    exchange answers 200 with a body that has a [token] and one hour
    after [datetime.now()] is a datetime; the client then holds that
    token, valid for one hour.  Otherwise it returns [False] and the
    client is as before, except that a token received when the expiry
    cannot be computed is stored under the old expiry. *)
Theorem authenticate_outcome env cs :
  let header := ("Bearer " +:+ cs_api_key cs)%string in
  let expiry := ce_auth_now env + timedelta_hours 1 in
  let cs' := (authenticate env cs).2 in
  exists ok,
    (authenticate env cs).1 = Returned ok
    /\ cs_api_key cs' = cs_api_key cs
    /\ (ok = true <->
          (exists v, ce_token env header = Returned (200, Returned v))
          /\ valid_datetime expiry)
    /\ (ok = true ->
          ce_token env header = Returned (200, Returned (token cs'))
          /\ token_expiry cs' = Some expiry)
    /\ (ok = false ->
          cs' = cs
          \/ (ce_token env header = Returned (200, Returned (token cs'))
              /\ token_expiry cs' = token_expiry cs /\ ~ valid_datetime expiry)).
Proof.
  cbv zeta. rewrite authenticate_run, datetime_add_valid.
  destruct (ce_token env _) as [[status [v|e]]|e] eqn:Htoken; cbn [fst snd].
  - destruct (status =? 200) eqn:Hstatus;
      [apply Z.eqb_eq in Hstatus as ->|apply Z.eqb_neq in Hstatus].
    + destruct (decide (valid_datetime _)) as [Hv|Hv]; cbn [fst snd].
      * exists true. split_and!; try done. split; [by eauto|done].
      * exists false. split_and!; try done; [|by right].
        split; [done|]. by intros [_ ?].
    + exists false. split_and!; try done; [|by left].
      split; [done|]. intros [[v' [= ? _]] _]. done.
  - exists false. assert ((if status =? 200 then (Returned false, cs)
                           else (Returned false, cs)) = (Returned false, cs)) as Hif
      by (by destruct (status =? 200)).
    destruct (status =? 200); cbn [fst snd]; (split_and!; try done; [|by left]);
      (split; [done|]); by intros [[v' [= ? ?]] _].
  - exists false. split_and!; try done; [|by left].
    split; [done|]. by intros [[v' ?] _].
Qed.

Lemma ensure_auth_run env cs :
  ensure_auth env cs
  = if negb (py_truthy (token cs)) then (Returned tt, (authenticate env cs).2)
    else match token_expiry cs with
         | Some expiry =>
             if expiry <=? ce_now env then (Returned tt, (authenticate env cs).2)
             else (Returned tt, cs)
         | None =>
             (Raised (ClientError
                "'>=' not supported between instances of 'datetime.datetime' and 'NoneType'"),
              cs)
         end.
Proof.
  destruct (authenticate_returns env cs) as (ok & Hok).
  destruct (authenticate env cs) as [o cs'] eqn:Ha. cbn [fst snd] in *. subst o.
  unfold ensure_auth, bind, get, lift, ret.
  destruct (negb _); [by rewrite Ha|].
  destruct (token_expiry cs) as [expiry|]; [|done].
  destruct (expiry <=? ce_now env); [by rewrite Ha|done].
Qed.

Lemma send_run env rq cs :
  send env rq cs
  = match ensure_auth env cs with
    | (Returned _, cs') => (ce_request env rq ("Bearer " +:+ py_str (token cs')), cs')
    | (Raised e, cs') => (Raised e, cs')
    end.
Proof. unfold send, bind, get, lift. by destruct (ensure_auth env cs) as [[[]|e] cs']. Qed.

(** X25: while the client holds a truthy token that has not expired, a
    call does not authenticate: it leaves the client as it is and sends
    its request under that token, and the call returns what the request
    gives. *)
Theorem authenticated_call env cs rq :
  authenticated (ce_now env) cs ->
  ensure_auth env cs = (Returned tt, cs)
  /\ send env rq cs = (ce_request env rq ("Bearer " +:+ py_str (token cs)), cs)
  /\ forall post_id,
       upvote env post_id cs
       = (match ce_request env (PostUpvote post_id) ("Bearer " +:+ py_str (token cs)) with
          | Returned resp => Returned (resp.1 =? 200)
          | Raised e => Raised e
          end, cs).
Proof.
  intros (Htruthy & expiry & Hexpiry & Hnow).
  assert (ensure_auth env cs = (Returned tt, cs)) as Hensure.
  { rewrite ensure_auth_run, Htruthy, Hexpiry. cbn [negb].
    by rewrite (proj2 (Z.leb_gt _ _) Hnow). }
  split; [done|]. split; [by rewrite send_run, Hensure|].
  intros post_id. unfold upvote, bind, ret. rewrite send_run, Hensure.
  by destruct (ce_request env _ _).
Qed.

(** X26: after an [authenticate] that returned [True] with a truthy
    token, every call within the hour reuses the token, and the first
    call at or after the hour authenticates again.  A falsy token, such
    as the empty string, is never reused: every call authenticates
    again. *)
Theorem token_lasts_an_hour env cs :
  (authenticate env cs).1 = Returned true ->
  let cs' := (authenticate env cs).2 in
  forall env2 : ClientEnv J,
    (py_truthy (token cs') = true ->
     ce_now env2 < ce_auth_now env + timedelta_hours 1 ->
     ensure_auth env2 cs' = (Returned tt, cs'))
    /\ (py_truthy (token cs') = false
        \/ ce_auth_now env + timedelta_hours 1 <= ce_now env2 ->
        ensure_auth env2 cs' = (Returned tt, (authenticate env2 cs').2)).
Proof.
  intros Hok cs' env2.
  assert (token_expiry cs' = Some (ce_auth_now env + timedelta_hours 1)) as Hexp.
  { subst cs'. revert Hok. rewrite authenticate_run, datetime_add_valid.
    destruct (ce_token env _) as [[status [v|e]]|e]; cbn [fst snd]; try done;
      destruct (status =? 200); try done; by destruct (decide (valid_datetime _)). }
  rewrite ensure_auth_run, Hexp. split.
  - intros -> Hnow. cbn [negb]. by rewrite (proj2 (Z.leb_gt _ _) Hnow).
  - intros [->|Hnow]; [done|]. destruct (negb _); [done|].
    by rewrite (proj2 (Z.leb_le _ _) Hnow).
Qed.

(** X27: a client without a truthy token whose authentication fails, by
    an exception or by a status other than 200, sends its request all
    the same, under the token it has: a new client sends
    [Bearer None]. *)
Theorem unauthenticated_call env cs rq :
  py_truthy (token cs) = false ->
  (exists e, ce_token env ("Bearer " +:+ cs_api_key cs) = Raised e)
  \/ (exists status body, ce_token env ("Bearer " +:+ cs_api_key cs)
                          = Returned (status, body) /\ status <> 200) ->
  (authenticate env cs) = (Returned false, cs)
  /\ send env rq cs = (ce_request env rq ("Bearer " +:+ py_str (token cs)), cs)
  /\ (token cs = py_None ->
      send env rq cs = (ce_request env rq "Bearer None", cs)).
Proof.
  intros Hfalsy Hfail.
  assert (authenticate env cs = (Returned false, cs)) as Hauth.
  { rewrite authenticate_run.
    destruct Hfail as [[e ->]|(status & body & -> & Hne)]; [done|].
    apply Z.eqb_neq in Hne. rewrite Hne. by destruct body. }
  assert (send env rq cs = (ce_request env rq ("Bearer " +:+ py_str (token cs)), cs))
    as Hsend.
  { rewrite send_run, ensure_auth_run, Hfalsy, Hauth. done. }
  split; [done|]. split; [done|]. intros Hnone. rewrite Hsend. by rewrite Hnone.
Qed.

(** X28: along the calls of a client, made while one hour after
    [datetime.now()] is a datetime, a truthy token always has an expiry;
    so [ensure_auth] returns, and a call raises only what its own
    request raises. *)
Theorem client_calls_return key cs env rq :
  rtc (client_step (J:=J)) (ClientState_init key) cs ->
  (py_truthy (token cs) = true -> is_Some (token_expiry cs))
  /\ (ensure_auth env cs).1 = Returned tt
  /\ (send env rq cs).1
     = ce_request env rq ("Bearer " +:+ py_str (token (ensure_auth env cs).2)).
Proof.
  intros Hrtc.
  assert (py_truthy (token cs) = true -> is_Some (token_expiry cs)) as Hinv.
  { assert (forall env0 cs0,
              valid_datetime (ce_auth_now env0 + timedelta_hours 1) ->
              (py_truthy (token cs0) = true -> is_Some (token_expiry cs0)) ->
              py_truthy (token (authenticate env0 cs0).2) = true ->
              is_Some (token_expiry (authenticate env0 cs0).2)) as Hauth.
    { intros env0 cs0 Hvalid Hcs0. rewrite authenticate_run, datetime_add_valid.
      rewrite decide_True by done.
      destruct (ce_token env0 _) as [[status [v|e]]|e]; cbn [fst snd]; try done;
        destruct (status =? 200); try done; by eexists. }
    refine (rtc_ind_r (fun cs => py_truthy (token cs) = true -> is_Some (token_expiry cs))
              (ClientState_init key) _ _ cs Hrtc); [done|].
    clear cs Hrtc. intros cs1 cs2 _ Hstep IH.
    destruct Hstep as [env0 cs1 Hvalid|env0 rq0 cs1 Hvalid]; [by apply Hauth|].
    rewrite send_run, ensure_auth_run.
    destruct (negb (py_truthy (token cs1))) eqn:Hfalsy.
    - destruct (ce_request env0 _ _); cbn [snd]; by apply Hauth.
    - apply negb_false_iff in Hfalsy. destruct (IH Hfalsy) as [expiry Hexp].
      rewrite Hexp. destruct (expiry <=? ce_now env0).
      + destruct (ce_request env0 _ _); cbn [snd]; by apply Hauth.
      + by destruct (ce_request env0 _ _). }
  split; [done|].
  assert ((ensure_auth env cs).1 = Returned tt) as Hret.
  { rewrite ensure_auth_run. destruct (negb _) eqn:Hfalsy; [done|].
    apply negb_false_iff in Hfalsy. destruct (Hinv Hfalsy) as [expiry ->].
    by destruct (expiry <=? ce_now env). }
  split; [done|]. rewrite send_run.
  destruct (ensure_auth env cs) as [o cs']. cbn [fst snd] in *. by subst o.
Qed.

End ClientProperties.

Lemma authenticated_call_witness :
  ensure_auth later_env logged_in = (Returned tt, logged_in)
  /\ create_post later_env "title" "content" "general" logged_in
     = (Returned "Bearer tok-1"%string, logged_in).
Proof.
  destruct (authenticated_call later_env logged_in (PostPost "title" "content" "general"))
    as (Hensure & Hsend & _).
  - split; [reflexivity|]. exists (morning + timedelta_hours 1).
    split; [reflexivity|]. vm_compute. reflexivity.
  - split; [exact Hensure|]. unfold create_post, bind. rewrite Hsend. reflexivity.
Defined.

Lemma token_lasts_an_hour_witness :
  ensure_auth later_env logged_in = (Returned tt, logged_in).
Proof.
  destruct (token_lasts_an_hour granting_env (ClientState_init "key") eq_refl later_env)
    as [Hwithin _].
  apply Hwithin; [reflexivity|vm_compute; reflexivity].
Defined.

Lemma unauthenticated_call_witness :
  send later_env (PostUpvote "p1") (ClientState_init "key")
  = (Returned (200, Returned "Bearer None"%string), ClientState_init "key").
Proof.
  destruct (unauthenticated_call later_env (ClientState_init "key") (PostUpvote "p1"))
    as (_ & _ & Hnone).
  - reflexivity.
  - left. by eexists.
  - by apply Hnone.
Defined.

Lemma client_calls_return_witness :
  (ensure_auth later_env logged_in).1 = Returned tt
  /\ (send later_env (GetPosts None) logged_in).1
     = Returned (200, Returned "Bearer tok-1"%string).
Proof.
  destruct (client_calls_return "key" logged_in later_env (GetPosts None))
    as (_ & Hensure & Hsend).
  - apply rtc_once. apply (step_authenticate granting_env).
    split; vm_compute; discriminate.
  - split; [exact Hensure|]. rewrite Hsend. reflexivity.
Defined.
